(** * Contact-form pipeline of the personal portfolio site

  The repository ships one client script (the browser side of the contact
  form, with the page's navigation aids) and one server script,
  [process_form.php].  This development embeds both and checks the
  properties the specification states about the submission pipeline,
  and further properties the code shows:

  - [Regex]  : the regular-expression fragment used by [isValidEmail],
               with a derivative matcher and its language;
  - [Client] : [isValidEmail], [showError], [clearError], [validateForm]
               and the submit handler with its try / catch / finally;
  - [Server] : the request handler of [process_form.php]: method check,
               sanitising, the validation block, the honeypot check and
               the database insertion with its try / catch;
  - [Navigation] : [highlightActiveSection] with the scroll listener that
               throttles it, and the typewriter of the hero title;
  - [Pipeline] : both validators on the same values, and the server's
               answer as the client receives it.

  JavaScript strings are sequences of UTF-16 code units ([list N]); PHP
  strings are byte strings ([string]); [$_POST] is a finite map. *)

From Stdlib Require Import NArith Ascii String.
From stdpp Require Import base option list strings gmap.

Set Default Proof Using "Type".
Local Open Scope string_scope.

(* ===================================================================== *)
(** ** Regular expressions over code units *)
(* ===================================================================== *)

Module Regex.

Definition char := N.

(** An item of a bracketed class: a literal, or a range. *)
Inductive item :=
| Lit (c : char)
| Range (lo hi : char).

Definition item_matches (c : char) (i : item) : bool :=
  match i with
  | Lit d => N.eqb c d
  | Range lo hi => N.leb lo c && N.leb c hi
  end.

(** [\s] of ECMAScript: WhiteSpace and LineTerminator code units. *)
Definition white_space : list item :=
  [ Range 9 13; Lit 32; Lit 160; Lit 5760; Range 8192 8202;
    Lit 8232; Lit 8233; Lit 8239; Lit 8287; Lit 12288; Lit 65279 ]%N.

Inductive regex :=
| Void
| Eps
| Class (negated : bool) (items : list item)
| Cat (r1 r2 : regex)
| Alt (r1 r2 : regex)
| Star (r : regex).

(** [r+] *)
Definition Plus (r : regex) : regex := Cat r (Star r).
(** a single literal code unit *)
Definition Chr (c : char) : regex := Class false [Lit c].

Definition class_matches (negated : bool) (items : list item) (c : char) : bool :=
  xorb negated (existsb (item_matches c) items).

Fixpoint nullable (r : regex) : bool :=
  match r with
  | Void => false
  | Eps => true
  | Class _ _ => false
  | Cat r1 r2 => nullable r1 && nullable r2
  | Alt r1 r2 => nullable r1 || nullable r2
  | Star _ => true
  end.

Fixpoint deriv (c : char) (r : regex) : regex :=
  match r with
  | Void => Void
  | Eps => Void
  | Class n items => if class_matches n items c then Eps else Void
  | Cat r1 r2 =>
      if nullable r1
      then Alt (Cat (deriv c r1) r2) (deriv c r2)
      else Cat (deriv c r1) r2
  | Alt r1 r2 => Alt (deriv c r1) (deriv c r2)
  | Star r1 => Cat (deriv c r1) (Star r1)
  end.

(** Whole-input match: the pattern sits between [^] and [$] with no
    flags, so the entire input has to be consumed. *)
Fixpoint matches (r : regex) (s : list char) : bool :=
  match s with
  | [] => nullable r
  | c :: s' => matches (deriv c r) s'
  end.

(** The language of a pattern. *)
Inductive lang : regex -> list char -> Prop :=
| lang_eps : lang Eps []
| lang_class n items c :
    class_matches n items c = true -> lang (Class n items) [c]
| lang_cat r1 r2 s1 s2 :
    lang r1 s1 -> lang r2 s2 -> lang (Cat r1 r2) (s1 ++ s2)
| lang_alt_l r1 r2 s : lang r1 s -> lang (Alt r1 r2) s
| lang_alt_r r1 r2 s : lang r2 s -> lang (Alt r1 r2) s
| lang_star_nil r : lang (Star r) []
| lang_star_cons r s1 s2 :
    lang r s1 -> lang (Star r) s2 -> lang (Star r) (s1 ++ s2).

End Regex.

(* ===================================================================== *)
(** ** The client script *)
(* ===================================================================== *)

Module Client.
Import Regex.

(** A JavaScript string: its UTF-16 code units. *)
Definition jsstring := list N.

(** A string literal of the script (all of them are ASCII). *)
Definition js (s : string) : jsstring :=
  map N_of_ascii (list_ascii_of_string s).

(** Truthiness of a string: [!s] holds exactly for the empty string. *)
Definition falsy (s : jsstring) : bool :=
  match s with [] => true | _ => false end.

Definition is_white_space (c : N) : bool :=
  existsb (item_matches c) white_space.

Fixpoint trimStart (s : jsstring) : jsstring :=
  match s with
  | [] => []
  | c :: s' => if is_white_space c then trimStart s' else s
  end.

Definition trimEnd (s : jsstring) : jsstring := rev (trimStart (rev s)).

(** [String.prototype.trim] *)
Definition trim (s : jsstring) : jsstring := trimEnd (trimStart s).

(** [[^\s@]] *)
Definition not_space_or_at : regex := Class true (white_space ++ [Lit 64%N]).

(** [/^[^\s@]+@[^\s@]+\.[^\s@]+$/] *)
Definition emailRegex : regex :=
  Cat (Plus not_space_or_at)
    (Cat (Chr 64%N)
       (Cat (Plus not_space_or_at)
          (Cat (Chr 46%N) (Plus not_space_or_at)))).

Definition isValidEmail (email : jsstring) : bool := matches emailRegex email.

(** The local@domain shape, in words: a non-empty local part, an at
    sign, and a domain made of two non-empty parts around a dot, none of
    the three parts holding white space or a further at sign. *)
Definition part_char (c : N) : Prop := is_white_space c = false /\ c <> 64%N.

Definition local_at_domain (s : jsstring) : Prop :=
  exists loc dom tld : jsstring,
    s = (loc ++ [64%N] ++ dom ++ [46%N] ++ tld)%list /\
    loc <> [] /\ dom <> [] /\ tld <> [] /\
    Forall part_char loc /\ Forall part_char dom /\ Forall part_char tld.

(** *** The part of the page the form code touches *)

(** The [.error-message] element of a form group. *)
Record ErrorDiv := { textContent : jsstring; display : jsstring }.

(** A form control, with the [error] class and the [.error-message]
    child of its parent element, once created.  Each control is taken to
    sit in a form group of its own (the page's markup is not part of the
    sources), so no two controls share a message element. *)
Record Input := {
  value : jsstring;
  error_class : bool;
  error_message : option ErrorDiv }.

Record Button := {
  disabled : bool;
  label : jsstring;          (* textContent *)
  opacity : jsstring }.      (* style.opacity *)

Inductive field := Fullname | Email | Reason | Subject | Message.

Record Page := {
  fullname : Input;
  email : Input;
  reason : Input;
  subject : Input;
  message : Input;
  submitButton : Button;
  form_display : jsstring;              (* form.style.display *)
  success_div : bool;                   (* a .success-message is attached *)
  submission_error : option jsstring;   (* errorMessage written into the innerHTML of the .submission-error *)
  console : list jsstring;
  requests : nat }.                     (* calls to fetch so far *)

Definition input_of (f : field) (p : Page) : Input :=
  match f with
  | Fullname => fullname p | Email => email p | Reason => reason p
  | Subject => subject p | Message => message p
  end.

Definition with_input (f : field) (i : Input) (p : Page) : Page :=
  {| fullname := if f is Fullname then i else fullname p;
     email := if f is Email then i else email p;
     reason := if f is Reason then i else reason p;
     subject := if f is Subject then i else subject p;
     message := if f is Message then i else message p;
     submitButton := submitButton p;
     form_display := form_display p;
     success_div := success_div p;
     submission_error := submission_error p;
     console := console p;
     requests := requests p |}.

Definition with_button (b : Button) (p : Page) : Page :=
  {| fullname := fullname p; email := email p; reason := reason p;
     subject := subject p; message := message p;
     submitButton := b;
     form_display := form_display p;
     success_div := success_div p;
     submission_error := submission_error p;
     console := console p;
     requests := requests p |}.

(** *** Computations: page state and exceptions *)

Inductive outcome (A : Type) :=
| Normal (a : A)
| Thrown (e : jsstring).
Arguments Normal {A} a.
Arguments Thrown {A} e.

Definition JS (A : Type) : Type := Page -> outcome A * Page.

Definition ret {A} (a : A) : JS A := fun p => (Normal a, p).
Definition throw {A} (e : jsstring) : JS A := fun p => (Thrown e, p).
Definition bind {A B} (m : JS A) (k : A -> JS B) : JS B :=
  fun p => match m p with
           | (Normal a, p') => k a p'
           | (Thrown e, p') => (Thrown e, p')
           end.
Definition modify (f : Page -> Page) : JS unit := fun p => (Normal tt, f p).
Definition read {A} (f : Page -> A) : JS A := fun p => (Normal (f p), p).

Declare Scope js_scope.
Delimit Scope js_scope with js.
Notation "x <- m ;; k" := (bind m (fun x => k))
  (at level 100, m at next level, right associativity) : js_scope.
Notation "m ;; k" := (bind m (fun _ => k))
  (at level 100, right associativity) : js_scope.
Local Open Scope js_scope.

(** [try { body } catch (e) { handler } finally { cleanup }] *)
Definition try_catch_finally {A}
    (body : JS A) (handler : jsstring -> JS A) (cleanup : JS unit) : JS A :=
  fun p =>
    let '(r, p1) :=
      match body p with
      | (Thrown e, p') => handler e p'
      | done => done
      end in
    match cleanup p1 with
    | (Normal _, p2) => (r, p2)
    | (Thrown e, p2) => (Thrown e, p2)
    end.

(** *** Inline field errors *)

(** The control after [showError]: the class is added and the message
    element (reused or created) shows the text. *)
Definition flagged (input : Input) (msg : jsstring) : Input :=
  {| value := value input;
     error_class := true;
     error_message := Some {| textContent := msg; display := js "block" |} |}.

(** The control after [clearError]: the class is removed and the message
    element, if there is one, is hidden. *)
Definition cleared (input : Input) : Input :=
  {| value := value input;
     error_class := false;
     error_message :=
       match error_message input with
       | Some d => Some {| textContent := textContent d; display := js "none" |}
       | None => None
       end |}.

Definition showError (f : field) (msg : jsstring) : JS unit :=
  modify (fun p => with_input f (flagged (input_of f p) msg) p).

Definition clearError (f : field) : JS unit :=
  modify (fun p => with_input f (cleared (input_of f p)) p).

Fixpoint forEach {A} (l : list A) (f : A -> JS unit) : JS unit :=
  match l with
  | [] => ret tt
  | x :: l' => f x ;; forEach l' f
  end.

(** *** validateForm *)

Definition validateForm : JS bool :=
  let isValid := true in
  forEach [Fullname; Email; Reason; Subject; Message] clearError ;;
  (* full name *)
  v <- read (fun p => value (fullname p)) ;;
  isValid <- (if falsy (trim v)
              then showError Fullname (js "Please enter your full name") ;; ret false
              else ret isValid) ;;
  (* email *)
  v <- read (fun p => value (email p)) ;;
  isValid <- (if falsy (trim v)
              then showError Email (js "Please enter your email address") ;; ret false
              else if negb (isValidEmail (trim v))
              then showError Email (js "Please enter a valid email address") ;; ret false
              else ret isValid) ;;
  (* reason *)
  v <- read (fun p => value (reason p)) ;;
  isValid <- (if falsy v
              then showError Reason (js "Please select a reason for contact") ;; ret false
              else ret isValid) ;;
  (* subject *)
  v <- read (fun p => value (subject p)) ;;
  isValid <- (if falsy (trim v)
              then showError Subject (js "Please enter a subject") ;; ret false
              else ret isValid) ;;
  (* message *)
  v <- read (fun p => value (message p)) ;;
  isValid <- (if falsy (trim v)
              then showError Message (js "Please enter your message") ;; ret false
              else if Nat.ltb (length (trim v)) 10
              then showError Message (js "Message must be at least 10 characters long") ;; ret false
              else ret isValid) ;;
  ret isValid.

(** The inline message a field displays, if any. *)
Definition shown_error (i : Input) : option jsstring :=
  match error_message i with
  | Some d => if bool_decide (display d = js "block") then Some (textContent d) else None
  | None => None
  end.

(** The message each test of [validateForm] produces, if any. *)
Definition name_error (p : Page) : option jsstring :=
  if falsy (trim (value (fullname p)))
  then Some (js "Please enter your full name") else None.
Definition email_error (p : Page) : option jsstring :=
  if falsy (trim (value (email p)))
  then Some (js "Please enter your email address")
  else if isValidEmail (trim (value (email p))) then None
  else Some (js "Please enter a valid email address").
Definition reason_error (p : Page) : option jsstring :=
  if falsy (value (reason p))
  then Some (js "Please select a reason for contact") else None.
Definition subject_error (p : Page) : option jsstring :=
  if falsy (trim (value (subject p)))
  then Some (js "Please enter a subject") else None.
Definition message_error (p : Page) : option jsstring :=
  if falsy (trim (value (message p)))
  then Some (js "Please enter your message")
  else if Nat.ltb (length (trim (value (message p)))) 10
  then Some (js "Message must be at least 10 characters long")
  else None.

(** A control cleared and then, when its test fails, flagged. *)
Definition annotated (input : Input) (err : option jsstring) : Input :=
  match err with
  | Some msg => flagged (cleared input) msg
  | None => cleared input
  end.

(** The five tests of [validateForm], as one boolean. *)
Definition name_ok (p : Page) : bool := negb (falsy (trim (value (fullname p)))).
Definition email_ok (p : Page) : bool :=
  negb (falsy (trim (value (email p)))) && isValidEmail (trim (value (email p))).
Definition reason_ok (p : Page) : bool := negb (falsy (value (reason p))).
Definition subject_ok (p : Page) : bool := negb (falsy (trim (value (subject p)))).
Definition message_ok (p : Page) : bool :=
  negb (falsy (trim (value (message p)))) &&
  negb (Nat.ltb (length (trim (value (message p)))) 10).

(** *** Submission

    The two [setTimeout] callbacks (the success message is taken down
    after 8 s, the error banner after 5 s) run after the listener has
    returned; a run of the listener ends before them. *)

(** What [response.json()] yields.  A [message], when the body has one,
    is a string, as in every body [process_form.php] sends. *)
Inductive Body :=
| NotJson                                        (* parsing throws *)
| Json (success : bool) (msg : option jsstring). (* result.success, result.message *)

(** How the request settles. *)
Inductive Settled :=
| Rejected (error : jsstring)            (* no response at all *)
| Responded (ok : bool) (body : Body).   (* response.ok, the body *)

Definition showSuccessMessage : JS unit :=
  modify (fun p =>
    {| fullname := fullname p; email := email p; reason := reason p;
       subject := subject p; message := message p;
       submitButton := submitButton p;
       form_display := js "none";
       success_div := true;
       submission_error := submission_error p;
       console := console p;
       requests := requests p |}).

(** [showSubmissionError] builds the banner from markup: the argument is
    interpolated into the paragraph of the banner's [innerHTML].  The page
    records that argument as it is written there; what the browser
    displays is the rendering of it as markup, which is not modelled. *)
Definition showSubmissionError (errorMessage : jsstring) : JS unit :=
  modify (fun p =>
    {| fullname := fullname p; email := email p; reason := reason p;
       subject := subject p; message := message p;
       submitButton := submitButton p;
       form_display := form_display p;
       success_div := success_div p;
       (* an existing banner is removed, the new one inserted *)
       submission_error := Some errorMessage;
       console := console p;
       requests := requests p |}).

Definition console_error (line : jsstring) : JS unit :=
  modify (fun p =>
    {| fullname := fullname p; email := email p; reason := reason p;
       subject := subject p; message := message p;
       submitButton := submitButton p;
       form_display := form_display p;
       success_div := success_div p;
       submission_error := submission_error p;
       console := console p ++ [line];
       requests := requests p |}).

(** [await fetch('process_form.php', ...)] under a given settlement. *)
Definition fetch (net : Settled) : JS (bool * Body) :=
  fun p =>
    let p' :=
      {| fullname := fullname p; email := email p; reason := reason p;
         subject := subject p; message := message p;
         submitButton := submitButton p;
         form_display := form_display p;
         success_div := success_div p;
         submission_error := submission_error p;
         console := console p;
         requests := S (requests p) |} in
    match net with
    | Rejected e => (Thrown e, p')
    | Responded ok body => (Normal (ok, body), p')
    end.

(** [await response.json()] *)
Definition json (body : Body) : JS (bool * option jsstring) :=
  match body with
  | NotJson => throw (js "SyntaxError")
  | Json success msg => ret (success, msg)
  end.

(** [a || b] on an optional string property *)
Definition or_default (a : option jsstring) (b : jsstring) : jsstring :=
  match a with
  | Some s => if falsy s then b else s
  | None => b
  end.

Definition set_button (f : Button -> Button) : JS unit :=
  modify (fun p => with_button (f (submitButton p)) p).

(** The [try] block of the submit listener. *)
Definition send (net : Settled) : JS unit :=
  response <- fetch net ;;
  if fst response
  then
    result <- json (snd response) ;;
    if fst result
    then showSuccessMessage
    else showSubmissionError
           (or_default (snd result) (js "Failed to send message. Please try again."))
  else showSubmissionError (js "Server error. Please try again later.").

(** Its [catch] block. *)
Definition on_failure (error : jsstring) : JS unit :=
  console_error (js "Form submission error: " ++ error)%list ;;
  showSubmissionError
    (js "Network error. Please check your connection and try again.").

(** Its [finally] block. *)
Definition restore (originalButtonText : jsstring) : JS unit :=
  set_button (fun b => {| disabled := false; label := label b; opacity := opacity b |}) ;;
  set_button (fun b => {| disabled := disabled b; label := originalButtonText; opacity := opacity b |}) ;;
  set_button (fun b => {| disabled := disabled b; label := label b; opacity := js "1" |}).

(** The loading state the button is put in before the request. *)
Definition busy : JS unit :=
  set_button (fun b => {| disabled := true; label := label b; opacity := opacity b |}) ;;
  set_button (fun b => {| disabled := disabled b; label := js "Sending..."; opacity := opacity b |}) ;;
  set_button (fun b => {| disabled := disabled b; label := label b; opacity := js "0.6" |}).

(** The [submit] listener of the contact form. *)
Definition onSubmit (net : Settled) : JS unit :=
  valid <- validateForm ;;
  if negb valid then ret tt else
  originalButtonText <- read (fun p => label (submitButton p)) ;;
  busy ;;
  try_catch_finally (send net) on_failure (restore originalButtonText).

(** *** A page to run the script on *)

Definition fresh_input (v : string) : Input :=
  {| value := js v; error_class := false; error_message := None |}.

(** The form filled in as in scenario A of the specification. *)
Definition sample_page : Page :=
  {| fullname := fresh_input "Jane Doe";
     email := fresh_input "  jane@example.com ";
     reason := fresh_input "job";
     subject := fresh_input "Hello";
     message := fresh_input "I would like to connect regarding an opportunity.";
     submitButton := {| disabled := false; label := js "Send Message"; opacity := [] |};
     form_display := js "block";
     success_div := false;
     submission_error := None;
     console := [];
     requests := 0 |}.

(** *** The listeners on the controls *)

(** The [blur] listener of a control; [is_email] tells whether the
    control's [type] is [email] (the markup is not part of the sources). *)
Definition onBlur (is_email : bool) (f : field) : JS unit :=
  v <- read (fun p => value (input_of f p)) ;;
  if negb (falsy (trim v))
  then
    if is_email
    then
      if negb (isValidEmail (trim v))
      then showError f (js "Please enter a valid email address")
      else clearError f
    else clearError f
  else ret tt.

(** The [input] listener of a control. *)
Definition onInput (f : field) : JS unit :=
  input <- read (input_of f) ;;
  if error_class input && negb (falsy (trim (value input)))
  then clearError f
  else ret tt.

(** [response.ok && result.success]: the one settlement on which the
    listener shows the success message. *)
Definition succeeded (net : Settled) : bool :=
  match net with
  | Responded true (Json true _) => true
  | _ => false
  end.

(** The form of scenario A with a five-letter message. *)
Definition short_message_page : Page :=
  {| fullname := fresh_input "Jane Doe";
     email := fresh_input "jane@example.com";
     reason := fresh_input "job";
     subject := fresh_input "Hello";
     message := fresh_input "short";
     submitButton := {| disabled := false; label := js "Send Message"; opacity := [] |};
     form_display := js "block";
     success_div := false;
     submission_error := None;
     console := [];
     requests := 0 |}.

End Client.

(* ===================================================================== *)
(** ** The server script, [process_form.php] *)
(* ===================================================================== *)

Module Server.

(** *** PHP primitives used by the script *)

(** [empty($s)] on a string: the empty string and the string ["0"]. *)
Definition empty (s : string) : bool := String.eqb s "" || String.eqb s "0".

(** [strlen]: the number of bytes. *)
Definition strlen (s : string) : nat := String.length s.

(** [in_array($needle, $haystack)]: loose comparison of two strings is
    plain equality unless both are numeric, and no entry of the haystack
    of this script is numeric. *)
Definition in_array (needle : string) (haystack : list string) : bool :=
  existsb (String.eqb needle) haystack.

(** [implode($glue, $pieces)] *)
Definition implode (glue : string) (pieces : list string) : string :=
  String.concat glue pieces.

(** *** The collaborators of [config.php] *)

Record Config := {
  sanitizeInput : string -> string;
  validateEmail : string -> bool;
  getClientIP : gmap string string -> string;    (* reads $_SERVER *)
  getUserAgent : gmap string string -> string;   (* reads $_SERVER *)
  DEBUG_MODE : bool }.

(** *** Request, response and store *)

Record Request := {
  REQUEST_METHOD : string;
  POST : gmap string string;
  SERVER : gmap string string }.

(** The JSON document the script echoes. *)
Record Payload := {
  success : bool;
  message : string;
  errors : option (list string);
  id : option N }.

Record Row := {
  row_id : N;
  full_name : string;
  row_email : string;
  row_subject : string;
  row_reason : string;
  row_message : string;
  ip_address : string;
  user_agent : string }.

Record Database := {
  rows : list Row;               (* contact_messages *)
  auto_increment : N;
  open_connections : nat;        (* connections currently open *)
  open_statements : nat;         (* prepared statements currently open *)
  connections_opened : nat }.    (* connections ever opened *)

(** How a mysqli call behaves in a given run. *)
Inductive call :=
| Works
| ReturnsFalse (error : string)
| Raises (error : string).

Record Behaviour := {
  on_connect : option string;    (* [Some e]: getDatabaseConnection throws e *)
  on_prepare : call;
  on_execute : call }.

(** A script variable holding a handle. *)
Inductive var := Unset | IsFalse | IsObject.

(** [isset($v) && $v] *)
Definition isset_and_truthy (v : var) : bool :=
  match v with IsObject => true | _ => false end.

Record World := {
  db : Database;
  headers : list string;
  status : nat;                  (* http_response_code *)
  output : list Payload;         (* what was echoed *)
  error_log : list string;
  conn : var;                    (* $conn *)
  stmt : var }.                  (* $stmt *)

Definition start (d : Database) : World :=
  {| db := d; headers := []; status := 200; output := []; error_log := [];
     conn := Unset; stmt := Unset |}.

(** *** Computations: world state, [exit] and exceptions *)

Inductive result (A : Type) :=
| Value (a : A)
| Exit
| Exception (e : string).
Arguments Value {A} a.
Arguments Exit {A}.
Arguments Exception {A} e.

Definition PHP (A : Type) : Type := World -> result A * World.

Definition ret {A} (a : A) : PHP A := fun w => (Value a, w).
Definition exit {A} : PHP A := fun w => (Exit, w).
Definition throw {A} (e : string) : PHP A := fun w => (Exception e, w).
Definition bind {A B} (m : PHP A) (k : A -> PHP B) : PHP B :=
  fun w => match m w with
           | (Value a, w') => k a w'
           | (Exit, w') => (Exit, w')
           | (Exception e, w') => (Exception e, w')
           end.
Definition modify (f : World -> World) : PHP unit := fun w => (Value tt, f w).
Definition read {A} (f : World -> A) : PHP A := fun w => (Value (f w), w).

Declare Scope php_scope.
Delimit Scope php_scope with php.
Notation "x <- m ;; k" := (bind m (fun x => k))
  (at level 100, m at next level, right associativity) : php_scope.
Notation "m ;; k" := (bind m (fun _ => k))
  (at level 100, right associativity) : php_scope.
Local Open Scope php_scope.

(** [try { body } catch (Exception $e) { handler }] *)
Definition try_catch {A} (body : PHP A) (handler : string -> PHP A) : PHP A :=
  fun w => match body w with
           | (Exception e, w') => handler e w'
           | other => other
           end.

Definition when (b : bool) (m : PHP unit) : PHP unit := if b then m else ret tt.

Definition with_db (f : Database -> Database) (w : World) : World :=
  {| db := f (db w); headers := headers w; status := status w;
     output := output w; error_log := error_log w;
     conn := conn w; stmt := stmt w |}.

Definition header (h : string) : PHP unit :=
  modify (fun w =>
    {| db := db w; headers := headers w ++ [h]; status := status w;
       output := output w; error_log := error_log w;
       conn := conn w; stmt := stmt w |}).

Definition http_response_code (code : nat) : PHP unit :=
  modify (fun w =>
    {| db := db w; headers := headers w; status := code;
       output := output w; error_log := error_log w;
       conn := conn w; stmt := stmt w |}).

Definition echo_json (p : Payload) : PHP unit :=
  modify (fun w =>
    {| db := db w; headers := headers w; status := status w;
       output := output w ++ [p]; error_log := error_log w;
       conn := conn w; stmt := stmt w |}).

Definition log_error (line : string) : PHP unit :=
  modify (fun w =>
    {| db := db w; headers := headers w; status := status w;
       output := output w; error_log := error_log w ++ [line];
       conn := conn w; stmt := stmt w |}).

Definition set_conn (v : var) : PHP unit :=
  modify (fun w =>
    {| db := db w; headers := headers w; status := status w;
       output := output w; error_log := error_log w;
       conn := v; stmt := stmt w |}).

Definition set_stmt (v : var) : PHP unit :=
  modify (fun w =>
    {| db := db w; headers := headers w; status := status w;
       output := output w; error_log := error_log w;
       conn := conn w; stmt := v |}).

(** *** The database calls *)

(** [getDatabaseConnection()] of [config.php]: a fresh open connection,
    or an exception and no connection left open. *)
Definition getDatabaseConnection (bhv : Behaviour) : PHP var :=
  match on_connect bhv with
  | Some e => throw e
  | None =>
      modify (with_db (fun d =>
        {| rows := rows d; auto_increment := auto_increment d;
           open_connections := S (open_connections d);
           open_statements := open_statements d;
           connections_opened := S (connections_opened d) |})) ;;
      ret IsObject
  end.

(** [$conn->prepare($sql)]: a statement, [false], or an exception. *)
Definition prepare (bhv : Behaviour) : PHP var :=
  match on_prepare bhv with
  | Works =>
      modify (with_db (fun d =>
        {| rows := rows d; auto_increment := auto_increment d;
           open_connections := open_connections d;
           open_statements := S (open_statements d);
           connections_opened := connections_opened d |})) ;;
      ret IsObject
  | ReturnsFalse _ => ret IsFalse
  | Raises e => throw e
  end.

(** [$conn->error], [$stmt->error] *)
Definition error_of (c : call) : string :=
  match c with
  | Works => ""
  | ReturnsFalse e => e
  | Raises e => e
  end.

(** [$stmt->execute()] with the seven bound parameters: on success one
    row is appended under the next identifier. *)
Definition execute (bhv : Behaviour) (bound : N -> Row) : PHP bool :=
  match on_execute bhv with
  | Works =>
      modify (with_db (fun d =>
        {| rows := rows d ++ [bound (auto_increment d)];
           auto_increment := N.succ (auto_increment d);
           open_connections := open_connections d;
           open_statements := open_statements d;
           connections_opened := connections_opened d |})) ;;
      ret true
  | ReturnsFalse _ => ret false
  | Raises e => throw e
  end.

(** [$stmt->insert_id]: the identifier given to the last inserted row. *)
Definition insert_id : PHP N :=
  read (fun w => N.pred (auto_increment (db w))).

Definition stmt_close : PHP unit :=
  modify (with_db (fun d =>
    {| rows := rows d; auto_increment := auto_increment d;
       open_connections := open_connections d;
       open_statements := pred (open_statements d);
       connections_opened := connections_opened d |})).

Definition conn_close : PHP unit :=
  modify (with_db (fun d =>
    {| rows := rows d; auto_increment := auto_increment d;
       open_connections := pred (open_connections d);
       open_statements := open_statements d;
       connections_opened := connections_opened d |})).

(** *** The validation block *)

Definition validReasons : list string := ["job"; "project"; "feedback"; "other"].

Definition validate_fullName (errors : list string) (fullName : string) : list string :=
  if empty fullName then errors ++ ["Full name is required."]
  else if Nat.ltb (strlen fullName) 2
  then errors ++ ["Full name must be at least 2 characters long."]
  else if Nat.ltb 100 (strlen fullName)
  then errors ++ ["Full name must not exceed 100 characters."]
  else errors.

Definition validate_email (cfg : Config) (errors : list string) (email : string)
  : list string :=
  if empty email then errors ++ ["Email address is required."]
  else if negb (validateEmail cfg email)
  then errors ++ ["Please provide a valid email address."]
  else if Nat.ltb 255 (strlen email)
  then errors ++ ["Email address is too long."]
  else errors.

Definition validate_subject (errors : list string) (subject : string) : list string :=
  if empty subject then errors ++ ["Subject is required."]
  else if Nat.ltb (strlen subject) 3
  then errors ++ ["Subject must be at least 3 characters long."]
  else if Nat.ltb 255 (strlen subject)
  then errors ++ ["Subject must not exceed 255 characters."]
  else errors.

Definition validate_reason (errors : list string) (reason : string) : list string :=
  if empty reason then errors ++ ["Please select a reason for contact."]
  else if negb (in_array reason validReasons)
  then errors ++ ["Invalid reason selected."]
  else errors.

Definition validate_message (errors : list string) (message : string) : list string :=
  if empty message then errors ++ ["Message is required."]
  else if Nat.ltb (strlen message) 10
  then errors ++ ["Message must be at least 10 characters long."]
  else if Nat.ltb 5000 (strlen message)
  then errors ++ ["Message must not exceed 5000 characters."]
  else errors.

(** The whole block, from [$errors = []] to the last [elseif]. *)
Definition validation (cfg : Config)
    (fullName email subject reason message : string) : list string :=
  let errors := [] in
  let errors := validate_fullName errors fullName in
  let errors := validate_email cfg errors email in
  let errors := validate_subject errors subject in
  let errors := validate_reason errors reason in
  let errors := validate_message errors message in
  errors.

(** *** The script *)

(** [isset($_POST[name]) ? sanitizeInput($_POST[name]) : ''] *)
Definition posted (cfg : Config) (req : Request) (name : string) : string :=
  match POST req !! name with
  | Some raw => sanitizeInput cfg raw
  | None => ""
  end.

(** [isset($_POST['website']) && !empty($_POST['website'])] *)
Definition honeypot_filled (req : Request) : bool :=
  match POST req !! "website" with
  | Some w => negb (empty w)
  | None => false
  end.

Definition is_empty_array (l : list string) : bool :=
  match l with [] => true | _ => false end.

Definition process_form (cfg : Config) (bhv : Behaviour) (req : Request) : PHP unit :=
  header "Content-Type: application/json" ;;
  (* request method *)
  when (negb (String.eqb (REQUEST_METHOD req) "POST"))
    (http_response_code 405 ;;
     echo_json {| success := false;
                  message := "Method not allowed. Only POST requests are accepted.";
                  errors := None; id := None |} ;;
     exit) ;;
  (* retrieve and sanitise *)
  let fullName := posted cfg req "fullname" in
  let email := posted cfg req "email" in
  let subject := posted cfg req "subject" in
  let reason := posted cfg req "reason" in
  let message := posted cfg req "message" in
  let ipAddress := getClientIP cfg (SERVER req) in
  let userAgent := getUserAgent cfg (SERVER req) in
  (* validation *)
  let errors := validation cfg fullName email subject reason message in
  when (negb (is_empty_array errors))
    (http_response_code 400 ;;
     echo_json {| success := false;
                  message := "Validation failed: " ++ implode " " errors;
                  errors := Some errors; id := None |} ;;
     exit) ;;
  (* honeypot *)
  when (honeypot_filled req)
    (http_response_code 400 ;;
     echo_json {| success := false; message := "Spam detected.";
                  errors := None; id := None |} ;;
     exit) ;;
  (* database insertion *)
  try_catch
    (c <- getDatabaseConnection bhv ;;
     set_conn c ;;
     s <- prepare bhv ;;
     set_stmt s ;;
     when (negb (isset_and_truthy s))
       (throw ("Failed to prepare statement: " ++ error_of (on_prepare bhv))) ;;
     (* bind_param("sssssss", ...) *)
     let bound := fun n =>
       {| row_id := n; full_name := fullName; row_email := email;
          row_subject := subject; row_reason := reason; row_message := message;
          ip_address := ipAddress; user_agent := userAgent |} in
     executed <- execute bhv bound ;;
     if executed
     then
       insertId <- insert_id ;;
       stmt_close ;;
       conn_close ;;
       http_response_code 200 ;;
       echo_json {| success := true;
                    message := "Thank you for your message! I will get back to you soon.";
                    errors := None; id := Some insertId |}
     else throw ("Failed to insert data: " ++ error_of (on_execute bhv)))
    (fun e =>
       log_error ("Form submission error: " ++ e) ;;
       s <- read stmt ;;
       when (isset_and_truthy s) stmt_close ;;
       c <- read conn ;;
       when (isset_and_truthy c) conn_close ;;
       http_response_code 500 ;;
       echo_json {| success := false;
                    message :=
                      if DEBUG_MODE cfg
                      then "Database error: " ++ e
                      else "An error occurred while processing your request. Please try again later.";
                    errors := None; id := None |}).

(** The world a request leaves behind, starting from store [d]. *)
Definition serve (cfg : Config) (bhv : Behaviour) (req : Request) (d : Database)
  : World :=
  snd (process_form cfg bhv req (start d)).

(** The violations the script finds in a request: the validation block
    run on the five posted, sanitised fields. *)
Definition request_errors (cfg : Config) (req : Request) : list string :=
  validation cfg (posted cfg req "fullname") (posted cfg req "email")
    (posted cfg req "subject") (posted cfg req "reason") (posted cfg req "message").

(** The three bodies the script sends before it touches the store. *)
Definition method_not_allowed : Payload :=
  {| success := false;
     message := "Method not allowed. Only POST requests are accepted.";
     errors := None; id := None |}.

Definition validation_failed (errs : list string) : Payload :=
  {| success := false;
     message := "Validation failed: " ++ implode " " errs;
     errors := Some errs; id := None |}.

Definition spam_detected : Payload :=
  {| success := false; message := "Spam detected."; errors := None; id := None |}.

(** The world after an exit that never reached the store. *)
Definition rejected (d : Database) (code : nat) (body : Payload) : World :=
  {| db := d; headers := ["Content-Type: application/json"]; status := code;
     output := [body]; error_log := []; conn := Unset; stmt := Unset |}.

(** The request gets past the method check, the validation block and the
    honeypot check, and so enters the database phase. *)
Definition reaches_store (cfg : Config) (req : Request) : bool :=
  String.eqb (REQUEST_METHOD req) "POST"
  && is_empty_array (request_errors cfg req)
  && negb (honeypot_filled req).

(** *** A configuration in the words of the specification *)

(** The default character list of PHP's [trim]. *)
Definition trim_byte (c : ascii) : bool :=
  existsb (N.eqb (N_of_ascii c)) [32; 9; 10; 13; 0; 11]%N.

Fixpoint ltrim (s : list ascii) : list ascii :=
  match s with
  | [] => []
  | c :: s' => if trim_byte c then ltrim s' else s
  end.

Definition trim (s : string) : string :=
  string_of_list_ascii (rev (ltrim (rev (ltrim (list_ascii_of_string s))))).

Fixpoint htmlspecialchars (s : string) : string :=
  match s with
  | EmptyString => EmptyString
  | String c s' =>
      (if Ascii.eqb c "&" then "&amp;"
       else if Ascii.eqb c "<" then "&lt;"
       else if Ascii.eqb c ">" then "&gt;"
       else if Ascii.eqb c (ascii_of_N 34) then "&quot;"
       else if Ascii.eqb c "'" then "&#039;"
       else String c EmptyString) ++ htmlspecialchars s'
  end.

(** Modelled from the spec: [sanitizeInput] of [config.php], which is not
    part of the sources.  The Input Sanitizer "returns a normalized
    string with leading/trailing whitespace removed and HTML-significant
    characters neutralized". *)
Definition spec_sanitizeInput (raw : string) : string :=
  htmlspecialchars (trim raw).

(** Modelled from the spec: [validateEmail] of [config.php], which is not
    part of the sources.  The email "must match a standard local@domain
    pattern"; the pattern of the client script is taken for it. *)
Definition spec_validateEmail (email : string) : bool :=
  Client.isValidEmail (Client.js email).

(** Modelled from the spec: the remaining names of [config.php]
    ([getClientIP], [getUserAgent], [DEBUG_MODE]), read off [$_SERVER]
    with production mode on. *)
Definition spec_config : Config :=
  {| sanitizeInput := spec_sanitizeInput;
     validateEmail := spec_validateEmail;
     getClientIP := fun server => default "UNKNOWN" (server !! "REMOTE_ADDR");
     getUserAgent := fun server => default "UNKNOWN" (server !! "HTTP_USER_AGENT");
     DEBUG_MODE := false |}.

(** *** The end-to-end scenarios of the specification *)

Definition post_request (fields : list (string * string)) : Request :=
  {| REQUEST_METHOD := "POST"; POST := list_to_map fields; SERVER := ∅ |}.

Definition scenario_A : Request :=
  post_request
    [("fullname", "Jane Doe"); ("email", "jane@example.com"); ("subject", "Hello");
     ("reason", "job");
     ("message", "I would like to connect regarding an opportunity.")].

Definition scenario_B : Request :=
  post_request
    [("fullname", "J"); ("email", "bad-email"); ("subject", "Hi");
     ("reason", ""); ("message", "short")].

Definition scenario_C : Request :=
  post_request
    [("fullname", "Jane Doe"); ("email", "jane@example.com"); ("subject", "Hello");
     ("reason", "job");
     ("message", "I would like to connect regarding an opportunity.");
     ("website", "http://spam.example")].

(** Scenario B sent by a bot that also fills the hidden field. *)
Definition scenario_B_with_honeypot : Request :=
  post_request
    [("fullname", "J"); ("email", "bad-email"); ("subject", "Hi");
     ("reason", ""); ("message", "short");
     ("website", "http://spam.example")].

(** Scenario A with the single character 0 in the hidden field. *)
Definition scenario_A_with_zero : Request :=
  post_request
    [("fullname", "Jane Doe"); ("email", "jane@example.com"); ("subject", "Hello");
     ("reason", "job");
     ("message", "I would like to connect regarding an opportunity.");
     ("website", "0")].


Definition scenario_D : Request :=
  {| REQUEST_METHOD := "GET"; POST := ∅; SERVER := ∅ |}.

Definition empty_store : Database :=
  {| rows := []; auto_increment := 1; open_connections := 0;
     open_statements := 0; connections_opened := 0 |}.

Definition healthy : Behaviour :=
  {| on_connect := None; on_prepare := Works; on_execute := Works |}.

(** *** The database phase, seen from outside *)

(** The exception the [try] block ends in under a given behaviour of the
    database calls, if any: what [getDatabaseConnection], [prepare] or
    [execute] throws, or what the script throws itself when [prepare] or
    [execute] returns false. *)
Definition store_exception (bhv : Behaviour) : option string :=
  match on_connect bhv with
  | Some e => Some e
  | None =>
      match on_prepare bhv with
      | Raises e => Some e
      | ReturnsFalse e => Some ("Failed to prepare statement: " ++ e)
      | Works =>
          match on_execute bhv with
          | Raises e => Some e
          | ReturnsFalse e => Some ("Failed to insert data: " ++ e)
          | Works => None
          end
      end
  end.

(** The row the script binds for a request, under identifier [n]. *)
Definition bound_row (cfg : Config) (req : Request) (n : N) : Row :=
  {| row_id := n;
     full_name := posted cfg req "fullname";
     row_email := posted cfg req "email";
     row_subject := posted cfg req "subject";
     row_reason := posted cfg req "reason";
     row_message := posted cfg req "message";
     ip_address := getClientIP cfg (SERVER req);
     user_agent := getUserAgent cfg (SERVER req) |}.

(** The body of the 500 answer for exception text [e]. *)
Definition server_error (cfg : Config) (e : string) : Payload :=
  {| success := false;
     message :=
       if DEBUG_MODE cfg
       then "Database error: " ++ e
       else "An error occurred while processing your request. Please try again later.";
     errors := None; id := None |}.

(** The body of the 200 answer for identifier [n]. *)
Definition thank_you (n : N) : Payload :=
  {| success := true;
     message := "Thank you for your message! I will get back to you soon.";
     errors := None; id := Some n |}.

(** The first rule a field violates, the rules taken in the order given:
    a rule is a test that holds when the rule is violated, with the
    message it then contributes. *)
Fixpoint first_failing (rules : list (bool * string)) : list string :=
  match rules with
  | [] => []
  | (violated, msg) :: rest => if violated then [msg] else first_failing rest
  end.







(** A behaviour in which [execute] returns false. *)
Definition failing_insert : Behaviour :=
  {| on_connect := None; on_prepare := Works;
     on_execute := ReturnsFalse "Duplicate entry" |}.

(** A request that carries none of the form fields. *)
Definition bare_post : Request := post_request [].

End Server.

(* ===================================================================== *)
(** ** The client script: navigation highlight and typewriter *)
(* ===================================================================== *)

Module Navigation.
Local Open Scope Z_scope.

(** A [main section[id]] element.  Offsets are whole CSS pixels. *)
Record Section := {
  id : Client.jsstring;
  offsetTop : Z;
  offsetHeight : Z }.

(** A [nav a[href^=#]] element and whether its class list holds
    [active]. *)
Record NavLink := {
  href : Client.jsstring;
  active : bool }.

(** The test of [highlightActiveSection] on one section. *)
Definition in_view (scrollPosition : Z) (section : Section) : bool :=
  (offsetTop section <=? scrollPosition)
  && (scrollPosition <? offsetTop section + offsetHeight section).

(** [currentSection] after the loop over the sections. *)
Definition current_section (sections : list Section) (scrollY : Z) : Client.jsstring :=
  let scrollPosition := scrollY + 150 in
  fold_left
    (fun currentSection section =>
       if in_view scrollPosition section then id section else currentSection)
    sections [].

(** [highlightActiveSection], for a whole-pixel [window.scrollY]: the
    links it leaves. *)
Definition highlightActiveSection (sections : list Section) (navLinks : list NavLink)
    (scrollY : Z) : list NavLink :=
  let currentSection := current_section sections scrollY in
  map (fun link =>
         {| href := href link;
            active := bool_decide (href link = (Client.js "#" ++ currentSection)%list) |})
      navLinks.

(** *** The scroll listener and its animation frame *)

Record Scroller := {
  ticking : bool;
  frames : nat;                 (* callbacks handed to requestAnimationFrame, not yet run *)
  navLinks : list NavLink }.

Inductive event :=
| Scroll                        (* a scroll event reaches the listener *)
| Frame (scrollY : Z).          (* the browser runs a pending callback *)

Definition step (sections : list Section) (s : Scroller) (e : event) : Scroller :=
  match e with
  | Scroll =>
      if negb (ticking s)
      then {| ticking := true; frames := S (frames s); navLinks := navLinks s |}
      else s
  | Frame scrollY =>
      match frames s with
      | O => s
      | S n =>
          {| ticking := false; frames := n;
             navLinks := highlightActiveSection sections (navLinks s) scrollY |}
      end
  end.

(** [initActiveNavHighlight]: the listener is installed and the links are
    highlighted once for the position at load. *)
Definition initActiveNavHighlight (sections : list Section) (links : list NavLink)
    (scrollY : Z) : Scroller :=
  {| ticking := false; frames := 0;
     navLinks := highlightActiveSection sections links scrollY |}.

Definition run (sections : list Section) (s : Scroller) (events : list event) : Scroller :=
  fold_left (step sections) events s.

(** *** The typewriter *)

Record Typewriter := {
  textContent : Client.jsstring;   (* of the hero title *)
  charIndex : nat;
  timer : bool }.                  (* a setTimeout for typeNextChar is pending *)

(** [String.prototype.charAt] *)
Definition charAt (s : Client.jsstring) (i : nat) : Client.jsstring :=
  match nth_error s i with
  | Some c => [c]
  | None => []
  end.

Definition typeNextChar (originalText : Client.jsstring) (t : Typewriter) : Typewriter :=
  if Nat.ltb (charIndex t) (length originalText)
  then {| textContent := (textContent t ++ charAt originalText (charIndex t))%list;
          charIndex := S (charIndex t);
          timer := true |}
  else {| textContent := textContent t; charIndex := charIndex t; timer := false |}.

(** [initTypewriterEffect] on a hero title that exists: the text is
    emptied and the first timer set. *)
Definition initTypewriterEffect : Typewriter :=
  {| textContent := []; charIndex := 0; timer := true |}.

(** [n] timer ticks: a pending timer runs [typeNextChar]. *)
Fixpoint ticks (originalText : Client.jsstring) (n : nat) (t : Typewriter) : Typewriter :=
  match n with
  | O => t
  | S k => ticks originalText k (if timer t then typeNextChar originalText t else t)
  end.

(** *** A page to run them on *)

Definition sample_sections : list Section :=
  [ {| id := Client.js "hero"; offsetTop := 0; offsetHeight := 600 |};
    {| id := Client.js "projects"; offsetTop := 600; offsetHeight := 900 |};
    {| id := Client.js "contact"; offsetTop := 1500; offsetHeight := 700 |} ].

Definition sample_links : list NavLink :=
  [ {| href := Client.js "#hero"; active := true |};
    {| href := Client.js "#projects"; active := false |};
    {| href := Client.js "#contact"; active := false |} ].

End Navigation.

(* ===================================================================== *)
(** ** Both ends on the same values *)
(* ===================================================================== *)

Module Pipeline.



(** The contact form holding the five given values. *)
Definition form_of (fullName email subject reason message : string) : Client.Page :=
  {| Client.fullname := Client.fresh_input fullName;
     Client.email := Client.fresh_input email;
     Client.reason := Client.fresh_input reason;
     Client.subject := Client.fresh_input subject;
     Client.message := Client.fresh_input message;
     Client.submitButton :=
       {| Client.disabled := false; Client.label := Client.js "Send Message";
          Client.opacity := [] |};
     Client.form_display := Client.js "block";
     Client.success_div := false;
     Client.submission_error := None;
     Client.console := [];
     Client.requests := 0 |}.



(** *** The server's answer as the client receives it *)

(** [response.ok]: a status from 200 to 299. *)
Definition ok_status (code : nat) : bool := Nat.leb 200 code && Nat.leb code 299.

(** How the client's request settles on a run of the server script;
    [parse] is what [response.json()] makes of the echoed body. *)
Definition settle (parse : Server.Payload -> Client.Body) (w : Server.World)
  : Client.Settled :=
  Client.Responded (ok_status (Server.status w))
    (match Server.output w with
     | [body] => parse body
     | _ => Client.NotJson
     end).

(** A reading of the body that is right for bodies of ASCII text. *)
Definition parse_ascii (body : Server.Payload) : Client.Body :=
  Client.Json (Server.success body) (Some (Client.js (Server.message body))).

End Pipeline.

(* ===================================================================== *)
(** ** The matcher decides the language *)
(* ===================================================================== *)

Module RegexFacts.
Import Regex.
Local Open Scope list_scope.

Lemma lang_cat_inv r1 r2 s :
  lang (Cat r1 r2) s -> exists s1 s2, s = s1 ++ s2 /\ lang r1 s1 /\ lang r2 s2.
Proof. inversion 1; subst; eauto. Qed.

Lemma lang_alt_inv r1 r2 s : lang (Alt r1 r2) s -> lang r1 s \/ lang r2 s.
Proof. inversion 1; subst; auto. Qed.

Lemma lang_class_inv n items s :
  lang (Class n items) s -> exists c, s = [c] /\ class_matches n items c = true.
Proof. inversion 1; subst; eauto. Qed.

Lemma lang_cat_cons r1 r2 c s1 s2 :
  lang r1 (c :: s1) -> lang r2 s2 -> lang (Cat r1 r2) (c :: s1 ++ s2).
Proof. intros H1 H2. apply (lang_cat r1 r2 (c :: s1) s2 H1 H2). Qed.

Lemma nullable_lang r : nullable r = true <-> lang r [].
Proof.
  induction r as [ | | n items | r1 IH1 r2 IH2 | r1 IH1 r2 IH2 | r IH ]; simpl.
  - split; [discriminate | inversion 1].
  - split; [constructor | reflexivity].
  - split; [discriminate | inversion 1].
  - rewrite andb_true_iff, IH1, IH2. split.
    + intros [H1 H2]. apply (lang_cat r1 r2 [] [] H1 H2).
    + intros H. apply lang_cat_inv in H as (s1 & s2 & Hs & H1 & H2).
      symmetry in Hs. apply app_eq_nil in Hs as [-> ->]. by split.
  - rewrite orb_true_iff, IH1, IH2. split.
    + intros [H | H]; [by apply lang_alt_l | by apply lang_alt_r].
    + apply lang_alt_inv.
  - split; [constructor | reflexivity].
Qed.

Lemma lang_star_uncons c r s :
  lang (Star r) (c :: s) ->
  exists s1 s2, s = s1 ++ s2 /\ lang r (c :: s1) /\ lang (Star r) s2.
Proof.
  intros H. remember (Star r) as r' eqn:Er. remember (c :: s) as s' eqn:Es.
  induction H as [ | | | | | | r0 s1 s2 H1 _ H2 IH2 ]; try discriminate.
  injection Er as ->.
  destruct s1 as [ | c1 s1 ]; simpl in Es.
  - by apply IH2.
  - injection Es as -> <-. by exists s1, s2.
Qed.

Lemma deriv_lang c r : forall s, lang (deriv c r) s <-> lang r (c :: s).
Proof.
  induction r as [ | | n items | r1 IH1 r2 IH2 | r1 IH1 r2 IH2 | r IH ];
    intros s; simpl.
  - split; inversion 1.
  - split; inversion 1.
  - destruct (class_matches n items c) eqn:Hc; split.
    + inversion 1; subst. by constructor.
    + intros H. apply lang_class_inv in H as (c0 & [= <- ->] & _). constructor.
    + inversion 1.
    + intros H. apply lang_class_inv in H as (c0 & [= <- ->] & H). congruence.
  - destruct (nullable r1) eqn:Hn; split.
    + intros H. apply lang_alt_inv in H as [H | H].
      * apply lang_cat_inv in H as (s1 & s2 & -> & H1 & H2).
        apply lang_cat_cons; [by apply IH1 | done].
      * apply nullable_lang in Hn.
        apply (lang_cat r1 r2 [] (c :: s) Hn). by apply IH2.
    + intros H. apply lang_cat_inv in H as (s1 & s2 & Hs & H1 & H2).
      destruct s1 as [ | c1 s1 ]; simpl in Hs.
      * subst s2. apply lang_alt_r. by apply IH2.
      * injection Hs as <- ->. apply lang_alt_l. constructor; [by apply IH1 | done].
    + intros H. apply lang_cat_inv in H as (s1 & s2 & -> & H1 & H2).
      apply lang_cat_cons; [by apply IH1 | done].
    + intros H. apply lang_cat_inv in H as (s1 & s2 & Hs & H1 & H2).
      destruct s1 as [ | c1 s1 ]; simpl in Hs.
      * apply nullable_lang in H1. congruence.
      * injection Hs as <- ->. constructor; [by apply IH1 | done].
  - split; intros H; apply lang_alt_inv in H as [H | H].
    + apply lang_alt_l. by apply IH1.
    + apply lang_alt_r. by apply IH2.
    + apply lang_alt_l. by apply IH1.
    + apply lang_alt_r. by apply IH2.
  - split.
    + intros H. apply lang_cat_inv in H as (s1 & s2 & -> & H1 & H2).
      apply (lang_star_cons r (c :: s1) s2); [by apply IH | done].
    + intros H. apply lang_star_uncons in H as (s1 & s2 & -> & H1 & H2).
      constructor; [by apply IH | done].
Qed.

Lemma matches_lang s : forall r, matches r s = true <-> lang r s.
Proof.
  induction s as [ | c s IH ]; intros r; simpl.
  - apply nullable_lang.
  - rewrite IH. apply deriv_lang.
Qed.

End RegexFacts.

(* ===================================================================== *)
(** ** The client script: email pattern and field checks *)
(* ===================================================================== *)

Module ClientFacts.
Import Regex RegexFacts Client.
Local Open Scope list_scope.

Lemma not_space_or_at_char c :
  class_matches true (white_space ++ [Lit 64%N]) c = true <-> part_char c.
Proof.
  unfold class_matches, part_char, is_white_space.
  rewrite existsb_app. simpl existsb at 2. rewrite orb_false_r.
  destruct (existsb (item_matches c) white_space); simpl.
  - split; [discriminate | intros [? _]; discriminate].
  - destruct (N.eqb_spec c 64); simpl; split; try done.
    intros [_ ?]. done.
Qed.

Lemma lang_star_class n items s :
  lang (Star (Class n items)) s <->
  Forall (fun c => class_matches n items c = true) s.
Proof.
  split.
  - intros H. remember (Star (Class n items)) as r eqn:Er.
    induction H as [ | | | | | | r0 s1 s2 H1 _ H2 IH2 ]; try discriminate.
    + constructor.
    + injection Er as ->.
      apply lang_class_inv in H1 as (c & -> & Hc).
      constructor; [done | by apply IH2].
  - induction 1 as [ | c s Hc _ IH ]; [constructor | ].
    apply (lang_star_cons _ [c] s); [by constructor | done].
Qed.

Lemma lang_plus_class n items s :
  lang (Plus (Class n items)) s <->
  s <> [] /\ Forall (fun c => class_matches n items c = true) s.
Proof.
  unfold Plus. split.
  - intros H. apply lang_cat_inv in H as (s1 & s2 & -> & H1 & H2).
    apply lang_class_inv in H1 as (c & -> & Hc).
    apply lang_star_class in H2. split; [done | by constructor].
  - intros [Hne H]. destruct H as [ | c s Hc H ]; [done | ].
    apply (lang_cat _ _ [c] s); [by constructor | by apply lang_star_class].
Qed.

Lemma lang_chr c s : lang (Chr c) s <-> s = [c].
Proof.
  unfold Chr. split.
  - intros H. apply lang_class_inv in H as (c' & -> & Hc).
    unfold class_matches in Hc. simpl in Hc. rewrite orb_false_r in Hc.
    by apply N.eqb_eq in Hc as ->.
  - intros ->. constructor. unfold class_matches. simpl.
    by rewrite N.eqb_refl.
Qed.

Lemma lang_part s :
  lang (Plus not_space_or_at) s <-> s <> [] /\ Forall part_char s.
Proof.
  unfold not_space_or_at. rewrite lang_plus_class.
  split; intros [Hne H]; (split; [done | ]);
    eapply Forall_impl; try exact H; intros c Hc; by apply not_space_or_at_char.
Qed.

(** [isValidEmail] accepts exactly the strings of the local@domain shape. *)
Lemma isValidEmail_shape s : isValidEmail s = true <-> local_at_domain s.
Proof.
  unfold isValidEmail, local_at_domain. rewrite matches_lang. unfold emailRegex.
  split.
  - intros H.
    apply lang_cat_inv in H as (loc & s1 & -> & Hloc & H).
    apply lang_cat_inv in H as (a & s2 & -> & Ha & H).
    apply lang_cat_inv in H as (dom & s3 & -> & Hdom & H).
    apply lang_cat_inv in H as (d & tld & -> & Hd & Htld).
    apply lang_chr in Ha as ->. apply lang_chr in Hd as ->.
    apply lang_part in Hloc as [? ?]. apply lang_part in Hdom as [? ?].
    apply lang_part in Htld as [? ?].
    by exists loc, dom, tld.
  - intros (loc & dom & tld & -> & ? & ? & ? & ? & ? & ?).
    repeat (constructor; try (by apply lang_part); try (by apply lang_chr)).
Qed.

Lemma isValidEmail_not_shape s : isValidEmail s = false <-> ~ local_at_domain s.
Proof.
  rewrite <- isValidEmail_shape. by destruct (isValidEmail s).
Qed.

(** *** validateForm *)

Ltac run_js :=
  unfold validateForm, onSubmit, try_catch_finally, forEach, showError, clearError,
    showSuccessMessage, showSubmissionError, console_error, set_button, fetch, json,
    with_input, with_button, input_of, annotated, flagged, cleared,
    bind, read, modify, ret, throw; simpl.

(** Case analysis on the tests of [validateForm], in source order. *)
Ltac form_cases p :=
  destruct (falsy (trim (value (fullname p)))); simpl;
  destruct (falsy (trim (value (email p)))); simpl;
  destruct (isValidEmail (trim (value (email p)))); simpl;
  destruct (falsy (value (reason p))); simpl;
  destruct (falsy (trim (value (subject p)))); simpl;
  destruct (falsy (trim (value (message p)))); simpl;
  destruct (Nat.ltb (length (trim (value (message p)))) 10); simpl.

(** One run of [validateForm]: the verdict, and the page it leaves. *)
Lemma validateForm_run p :
  validateForm p
  = (Normal (name_ok p && email_ok p && reason_ok p && subject_ok p && message_ok p),
     {| fullname := annotated (fullname p) (name_error p);
        email := annotated (email p) (email_error p);
        reason := annotated (reason p) (reason_error p);
        subject := annotated (subject p) (subject_error p);
        message := annotated (message p) (message_error p);
        submitButton := submitButton p;
        form_display := form_display p;
        success_div := success_div p;
        submission_error := submission_error p;
        console := console p;
        requests := requests p |}).
Proof.
  unfold name_ok, email_ok, reason_ok, subject_ok, message_ok,
    name_error, email_error, reason_error, subject_error, message_error.
  run_js. form_cases p; reflexivity.
Qed.

Lemma validateForm_returns p :
  fst (validateForm p)
  = Normal (name_ok p && email_ok p && reason_ok p && subject_ok p && message_ok p).
Proof. by rewrite validateForm_run. Qed.

Lemma validateForm_button p : submitButton (snd (validateForm p)) = submitButton p.
Proof. by rewrite validateForm_run. Qed.

Lemma validateForm_requests p : requests (snd (validateForm p)) = requests p.
Proof. by rewrite validateForm_run. Qed.

Lemma shown_error_annotated input err : shown_error (annotated input err) = err.
Proof.
  destruct err as [msg | ]; simpl; [reflexivity | ].
  unfold shown_error, cleared; simpl. by destruct (error_message input).
Qed.

(** What the email field displays once [validateForm] has run. *)
Lemma validateForm_email_field p :
  shown_error (email (snd (validateForm p))) = email_error p.
Proof. rewrite validateForm_run. simpl. apply shown_error_annotated. Qed.

(** *** The submit handler *)

(** Whatever the body and the handler do, the [finally] block leaves the
    button enabled, with the given label, opaque. *)
Lemma restore_runs {A} (body : JS A) (handler : jsstring -> JS A) original p :
  submitButton (snd (try_catch_finally body handler (restore original) p))
  = {| disabled := false; label := original; opacity := js "1" |}.
Proof.
  unfold try_catch_finally.
  destruct (body p) as [[a | e] p1].
  - reflexivity.
  - destruct (handler e p1) as [r p2]. reflexivity.
Qed.

(** However the request settles, exactly one request has been sent. *)
Lemma send_requests net original p :
  requests (snd (try_catch_finally (send net) on_failure (restore original) p))
  = S (requests p).
Proof.
  destruct net as [e | [ | ] [ | [ | ] msg ] ]; reflexivity.
Qed.

Lemma onSubmit_valid net p :
  fst (validateForm p) = Normal true ->
  onSubmit net p
  = try_catch_finally (send net) on_failure (restore (label (submitButton p)))
      (snd (busy (snd (validateForm p)))).
Proof.
  intros Hv. pose proof (validateForm_button p) as Hb.
  unfold onSubmit. unfold bind at 1.
  destruct (validateForm p) as [r p1]. simpl in Hv, Hb. subst r.
  change (negb true) with false. cbv beta iota.
  unfold bind at 1, read at 1. rewrite Hb. reflexivity.
Qed.

(** C9 as the script has it: a submission that passes [validateForm]
    sends the request, and however the request settles (a success
    response, an error response, a body that does not parse, or no
    response at all) the handler ends with the submit button enabled
    again, carrying the label it had before the submission, and with its
    opacity set to 1: the label is saved and put back, the opacity is
    not. *)
Theorem submit_control_restored (net : Settled) (p : Page) :
  fst (validateForm p) = Normal true ->
  requests (snd (onSubmit net p)) = S (requests p) /\
  submitButton (snd (onSubmit net p))
  = {| disabled := false; label := label (submitButton p); opacity := js "1" |}.
Proof.
  intros Hv. rewrite (onSubmit_valid net p Hv). split.
  - rewrite send_requests. f_equal. apply validateForm_requests.
  - apply restore_runs.
Qed.

(** The opacity the button had before the submission is not what it has
    after it: on the sample page the button has no inline opacity before,
    and opacity 1 after. *)
Lemma opacity_not_restored_counterexample :
  ~ (forall (net : Settled) (p : Page),
       fst (validateForm p) = Normal true ->
       submitButton (snd (onSubmit net p))
       = {| disabled := false; label := label (submitButton p);
            opacity := opacity (submitButton p) |}).
Proof.
  intros H. specialize (H (Rejected []) sample_page).
  assert (Hb : submitButton (snd (onSubmit (Rejected []) sample_page))
               = {| disabled := false; label := label (submitButton sample_page);
                    opacity := opacity (submitButton sample_page) |})
    by (apply H; vm_compute; reflexivity).
  vm_compute in Hb. discriminate Hb.
Qed.

(** Without a passing [validateForm] nothing is sent and the button is
    left alone. *)
Lemma onSubmit_invalid net p :
  fst (validateForm p) = Normal false ->
  onSubmit net p = (Normal tt, snd (validateForm p)).
Proof.
  intros Hv. unfold onSubmit. unfold bind at 1.
  destruct (validateForm p) as [r p1]. simpl in Hv. by subst r.
Qed.

Lemma submit_control_restored_witness :
  submitButton (snd (onSubmit (Rejected (js "TypeError: Failed to fetch")) sample_page))
  = {| disabled := false; label := js "Send Message"; opacity := js "1" |}.
Proof.
  apply (submit_control_restored (Rejected (js "TypeError: Failed to fetch")) sample_page).
  vm_compute. reflexivity.
Defined.

(** *** More on validateForm *)

Lemma annotated_twice input err :
  annotated (annotated input err) err = annotated input err.
Proof.
  destruct err as [msg | ]; unfold annotated, flagged, cleared; simpl;
    by destruct (error_message input).
Qed.

(** The tests read the values only, and a run leaves the values alone. *)
Lemma validateForm_values p f :
  value (input_of f (snd (validateForm p))) = value (input_of f p).
Proof.
  rewrite validateForm_run. destruct f; simpl; unfold annotated;
    by repeat case_match.
Qed.

(** X9: running [validateForm] a second time on the page it left gives
    the same verdict and leaves the page as it is: the annotations depend
    on the values alone, not on what was displayed before. *)
Theorem validateForm_idempotent (p : Page) :
  validateForm (snd (validateForm p))
  = (fst (validateForm p), snd (validateForm p)).
Proof.
  rewrite (validateForm_run (snd (validateForm p))).
  pose proof (validateForm_values p Fullname) as Vn.
  pose proof (validateForm_values p Email) as Ve.
  pose proof (validateForm_values p Reason) as Vr.
  pose proof (validateForm_values p Subject) as Vs.
  pose proof (validateForm_values p Message) as Vm.
  cbn [input_of] in Vn, Ve, Vr, Vs, Vm.
  unfold name_error, email_error, reason_error, subject_error, message_error,
    name_ok, email_ok, reason_ok, subject_ok, message_ok.
  rewrite Vn, Ve, Vr, Vs, Vm.
  rewrite (validateForm_run p).
  unfold name_error, email_error, reason_error, subject_error, message_error,
    name_ok, email_ok, reason_ok, subject_ok, message_ok.
  cbn [fst snd fullname email reason subject message
       submitButton form_display success_div submission_error console requests].
  by rewrite !annotated_twice.
Qed.

Lemma annotated_class input err :
  error_class (annotated input err) = bool_decide (is_Some err).
Proof. by destruct err. Qed.

(** X10: [validateForm] returns true exactly when it leaves no control
    with the [error] class; a control carries the class exactly when it
    displays a message; and the values are left as they were. *)
Theorem validateForm_flags_match_verdict (p : Page) :
  (fst (validateForm p) = Normal true <->
   forall f, error_class (input_of f (snd (validateForm p))) = false) /\
  (forall f, error_class (input_of f (snd (validateForm p))) = true <->
             is_Some (shown_error (input_of f (snd (validateForm p))))) /\
  (forall f, value (input_of f (snd (validateForm p))) = value (input_of f p)).
Proof.
  split; [ | split; [ | apply validateForm_values ] ].
  - rewrite validateForm_run. cbn [fst snd]. split.
    + intros [= H]. repeat (apply andb_true_iff in H as [H ?]).
      intros f. destruct f; cbn [input_of fullname email reason subject message];
        rewrite annotated_class;
        unfold name_ok, email_ok, reason_ok, subject_ok, message_ok in *;
        unfold name_error, email_error, reason_error, subject_error, message_error;
        repeat case_match; simpl in *; try done; congruence.
    + intros H.
      pose proof (H Fullname) as H1. pose proof (H Email) as H2.
      pose proof (H Reason) as H3. pose proof (H Subject) as H4.
      pose proof (H Message) as H5.
      cbn [input_of fullname email reason subject message] in H1, H2, H3, H4, H5.
      rewrite annotated_class in H1, H2, H3, H4, H5.
      unfold name_ok, email_ok, reason_ok, subject_ok, message_ok.
      unfold name_error, email_error, reason_error, subject_error, message_error in *.
      repeat case_match; simpl in *; try done.
  - intros f. rewrite validateForm_run.
    destruct f; cbn [snd input_of fullname email reason subject message];
      rewrite shown_error_annotated, annotated_class;
      (split; [intros H; by apply bool_decide_eq_true in H
              | intros H; by apply bool_decide_eq_true]).
Qed.

(** *** The listeners on the controls *)

Lemma shown_error_cleared input : shown_error (cleared input) = None.
Proof. unfold shown_error, cleared. simpl. by destruct (error_message input). Qed.

(** X11: on a non-blank email control the [blur] listener displays what
    [validateForm] would display on that control (the email-format message
    or nothing); on a blank control, of any type, it changes nothing. *)
Theorem blur_agrees_with_submit (p : Page) (is_email : bool) (f : field) :
  (falsy (trim (value (email p))) = false ->
   shown_error (email (snd (onBlur true Email p)))
   = shown_error (email (snd (validateForm p))) /\
   error_class (email (snd (onBlur true Email p)))
   = error_class (email (snd (validateForm p)))) /\
  (falsy (trim (value (input_of f p))) = true ->
   onBlur is_email f p = (Normal tt, p)).
Proof.
  split.
  - intros Hb. rewrite validateForm_run. cbn [snd email].
    rewrite shown_error_annotated, annotated_class.
    unfold email_error, onBlur, bind, read, showError, clearError, modify.
    cbn [input_of]. rewrite Hb. cbn [negb].
    destruct (isValidEmail (trim (value (email p)))); cbn [negb snd with_input email].
    + by rewrite shown_error_cleared.
    + done.
  - intros Hb. unfold onBlur, bind, read. by rewrite Hb.
Qed.

Lemma blur_agrees_with_submit_witness :
  shown_error (email (snd (onBlur true Email sample_page))) = None.
Proof.
  destruct (blur_agrees_with_submit sample_page true Email) as [H _].
  destruct H as [H _]; [vm_compute; reflexivity | ].
  rewrite H. vm_compute. reflexivity.
Defined.

(** X12: on a non-blank control that is not an email control the [blur]
    listener takes the error away without testing the value, and so does
    the [input] listener on any non-blank control; neither touches a
    value, so [validateForm] still returns what it returned before. *)
Theorem listeners_clear_unchecked (p : Page) (f : field) :
  falsy (trim (value (input_of f p))) = false ->
  error_class (input_of f (snd (onBlur false f p))) = false /\
  shown_error (input_of f (snd (onBlur false f p))) = None /\
  error_class (input_of f (snd (onInput f p))) = false /\
  fst (validateForm (snd (onBlur false f p))) = fst (validateForm p) /\
  fst (validateForm (snd (onInput f p))) = fst (validateForm p).
Proof.
  intros Hb.
  assert (Hblur : snd (onBlur false f p) = with_input f (cleared (input_of f p)) p).
  { unfold onBlur, bind, read, clearError, modify. by rewrite Hb. }
  assert (Hinput : snd (onInput f p)
                   = if error_class (input_of f p)
                     then with_input f (cleared (input_of f p)) p else p).
  { unfold onInput, bind, read, clearError, modify. rewrite Hb.
    by destruct (error_class (input_of f p)). }
  rewrite Hblur, Hinput, !validateForm_returns.
  repeat split.
  - by destruct f.
  - destruct f; cbn [input_of with_input fullname email reason subject message];
      apply shown_error_cleared.
  - destruct (error_class (input_of f p)) eqn:E; [by destruct f | done].
  - by destruct f.
  - destruct (error_class (input_of f p)); [by destruct f | done].
Qed.

Lemma listeners_clear_unchecked_witness :
  error_class (message (snd (onInput Message (snd (validateForm short_message_page)))))
  = false /\
  fst (validateForm (snd (onInput Message (snd (validateForm short_message_page)))))
  = Normal false.
Proof.
  destruct (listeners_clear_unchecked (snd (validateForm short_message_page)) Message)
    as (_ & _ & H1 & _ & H2); [vm_compute; reflexivity | ].
  split; [exact H1 | ]. rewrite H2. vm_compute. reflexivity.
Defined.

(** *** How a submission ends *)

(** X13: when [validateForm] fails the listener stops there: no request
    is sent, and the button, the banner and the success message are as
    they were. *)
Theorem invalid_form_sends_nothing (net : Settled) (p : Page) :
  fst (validateForm p) = Normal false ->
  requests (snd (onSubmit net p)) = requests p /\
  submitButton (snd (onSubmit net p)) = submitButton p /\
  submission_error (snd (onSubmit net p)) = submission_error p /\
  success_div (snd (onSubmit net p)) = success_div p /\
  form_display (snd (onSubmit net p)) = form_display p.
Proof.
  intros Hv. rewrite (onSubmit_invalid net p Hv), validateForm_run. by cbn.
Qed.

Lemma invalid_form_sends_nothing_witness :
  requests (snd (onSubmit (Responded true (Json true None)) short_message_page)) = 0.
Proof.
  apply (invalid_form_sends_nothing (Responded true (Json true None)) short_message_page).
  vm_compute. reflexivity.
Defined.

(** The page a passing submission is sent from. *)
Lemma busy_page p :
  snd (busy (snd (validateForm p)))
  = with_button {| disabled := true; label := js "Sending..."; opacity := js "0.6" |}
      (snd (validateForm p)).
Proof. reflexivity. Qed.

(** The page after an answer that is not ok, and after one that says
    [success]. *)
Lemma onSubmit_not_ok body p :
  fst (validateForm p) = Normal true ->
  submission_error (snd (onSubmit (Responded false body) p))
  = Some (js "Server error. Please try again later.") /\
  success_div (snd (onSubmit (Responded false body) p)) = success_div p /\
  form_display (snd (onSubmit (Responded false body) p)) = form_display p /\
  console (snd (onSubmit (Responded false body) p)) = console p.
Proof.
  intros Hv. rewrite (onSubmit_valid _ p Hv), busy_page, validateForm_run.
  by repeat split.
Qed.

Lemma onSubmit_success msg p :
  fst (validateForm p) = Normal true ->
  success_div (snd (onSubmit (Responded true (Json true msg)) p)) = true /\
  form_display (snd (onSubmit (Responded true (Json true msg)) p)) = js "none" /\
  submission_error (snd (onSubmit (Responded true (Json true msg)) p))
  = submission_error p.
Proof.
  intros Hv. rewrite (onSubmit_valid _ p Hv), busy_page, validateForm_run.
  by repeat split.
Qed.

(** X14: after a passing [validateForm], an answer that is not ok (any
    status outside 200 to 299) puts up the banner with the fixed
    server-error text, whatever the body says; the body is not read, the
    form stays displayed and no success message is shown. *)
Theorem error_answer_shows_fixed_banner (body : Body) (p : Page) :
  fst (validateForm p) = Normal true ->
  submission_error (snd (onSubmit (Responded false body) p))
  = Some (js "Server error. Please try again later.") /\
  success_div (snd (onSubmit (Responded false body) p)) = success_div p /\
  form_display (snd (onSubmit (Responded false body) p)) = form_display p /\
  console (snd (onSubmit (Responded false body) p)) = console p.
Proof. apply onSubmit_not_ok. Qed.

Lemma error_answer_shows_fixed_banner_witness :
  submission_error
    (snd (onSubmit (Responded false (Json false (Some (js "Validation failed"))))
            sample_page))
  = Some (js "Server error. Please try again later.").
Proof.
  apply (error_answer_shows_fixed_banner
           (Json false (Some (js "Validation failed"))) sample_page).
  vm_compute. reflexivity.
Defined.

(** X15: after a passing [validateForm], a request that gets no answer
    and an ok answer whose body is not JSON end the same way: the
    exception is written to the console and the banner carries the fixed
    network-error text. *)
Theorem unreadable_answer_is_network_error (error : jsstring) (p : Page) :
  fst (validateForm p) = Normal true ->
  (submission_error (snd (onSubmit (Rejected error) p))
   = Some (js "Network error. Please check your connection and try again.") /\
   console (snd (onSubmit (Rejected error) p))
   = console p ++ [js "Form submission error: " ++ error]) /\
  (submission_error (snd (onSubmit (Responded true NotJson) p))
   = Some (js "Network error. Please check your connection and try again.") /\
   console (snd (onSubmit (Responded true NotJson) p))
   = console p ++ [js "Form submission error: " ++ js "SyntaxError"]).
Proof.
  intros Hv. rewrite !(onSubmit_valid _ p Hv), busy_page, validateForm_run.
  by repeat split.
Qed.

Lemma unreadable_answer_is_network_error_witness :
  submission_error (snd (onSubmit (Responded true NotJson) sample_page))
  = Some (js "Network error. Please check your connection and try again.").
Proof.
  apply (unreadable_answer_is_network_error [] sample_page).
  vm_compute. reflexivity.
Defined.

(** X16: after a passing [validateForm], the success message replaces the
    form exactly when the answer is ok and its body says [success], and
    then the banner is left alone; on every other settlement the form
    stays as it was, no success message is added, and a banner is put
    up. *)
Theorem success_or_banner (net : Settled) (p : Page) :
  fst (validateForm p) = Normal true ->
  if succeeded net
  then success_div (snd (onSubmit net p)) = true /\
       form_display (snd (onSubmit net p)) = js "none" /\
       submission_error (snd (onSubmit net p)) = submission_error p
  else success_div (snd (onSubmit net p)) = success_div p /\
       form_display (snd (onSubmit net p)) = form_display p /\
       is_Some (submission_error (snd (onSubmit net p))).
Proof.
  intros Hv. rewrite !(onSubmit_valid _ p Hv), busy_page, validateForm_run.
  destruct net as [e | [ | ] [ | [ | ] msg ] ]; cbn [succeeded];
    (repeat split; try reflexivity); by eexists.
Qed.

Lemma success_or_banner_witness :
  success_div (snd (onSubmit (Responded true (Json true None)) sample_page)) = true.
Proof.
  apply (success_or_banner (Responded true (Json true None)) sample_page).
  vm_compute. reflexivity.
Defined.

(** *** What an accepted email looks like *)

Lemma part_no_at s : Forall part_char s -> filter (fun c => N.eqb c 64) s = [].
Proof.
  induction 1 as [ | c s [_ Hc] _ IH ]; [done | ].
  rewrite filter_cons. apply N.eqb_neq in Hc.
  destruct (decide (N.eqb c 64)) as [E | E]; [ | done].
  rewrite Hc in E. done.
Qed.

Lemma part_no_space s :
  Forall part_char s -> Forall (fun c => is_white_space c = false) s.
Proof. intros H. eapply Forall_impl; [exact H | by intros c [? _]]. Qed.

(** X17: a string [isValidEmail] accepts holds exactly one at sign, no
    white space anywhere, and at least five code units. *)
Theorem accepted_email_form (s : jsstring) :
  isValidEmail s = true ->
  filter (fun c => N.eqb c 64) s = [64%N] /\
  Forall (fun c => is_white_space c = false) s /\
  5 <= length s.
Proof.
  intros H. apply isValidEmail_shape in H
    as (loc & dom & tld & -> & Hl & Hd & Ht & Fl & Fd & Ft).
  unfold jsstring in *. repeat split.
  - rewrite !filter_app, (part_no_at loc Fl), (part_no_at dom Fd), (part_no_at tld Ft).
    reflexivity.
  - rewrite !Forall_app. repeat split; try (by apply part_no_space).
    + by repeat constructor.
    + by repeat constructor.
  - rewrite !length_app. simpl.
    destruct loc; [done | ]. destruct dom; [done | ]. destruct tld; [done | ].
    simpl. lia.
Qed.

Lemma accepted_email_form_witness :
  filter (fun c => N.eqb c 64) (js "jane@example.com") = [64%N].
Proof.
  apply (accepted_email_form (js "jane@example.com")). vm_compute. reflexivity.
Defined.

End ClientFacts.

(* ===================================================================== *)
(** ** The server script: exits before the store, and the store *)
(* ===================================================================== *)

Module ServerFacts.
Import Server.
Local Open Scope list_scope.

Ltac run_php :=
  cbv [serve process_form when try_catch getDatabaseConnection prepare execute
       insert_id stmt_close conn_close header http_response_code echo_json
       log_error set_conn set_stmt bind read modify ret exit throw with_db start
       isset_and_truthy is_empty_array negb snd fst
       on_connect on_prepare on_execute
       db headers status output error_log conn stmt
       rows auto_increment open_connections open_statements connections_opened
       Nat.pred].

Lemma serve_wrong_method cfg bhv req d :
  REQUEST_METHOD req <> "POST"%string ->
  serve cfg bhv req d = rejected d 405 method_not_allowed.
Proof.
  intros Hm. apply String.eqb_neq in Hm.
  run_php. rewrite Hm. reflexivity.
Qed.

Lemma serve_invalid cfg bhv req d :
  REQUEST_METHOD req = "POST"%string ->
  request_errors cfg req <> [] ->
  serve cfg bhv req d = rejected d 400 (validation_failed (request_errors cfg req)).
Proof.
  intros Hm He. apply String.eqb_eq in Hm.
  unfold request_errors in *. run_php. rewrite Hm.
  destruct (validation _ _ _ _ _ _) as [ | e errs ]; [done | reflexivity].
Qed.

Lemma serve_spam cfg bhv req d :
  REQUEST_METHOD req = "POST"%string ->
  request_errors cfg req = [] ->
  honeypot_filled req = true ->
  serve cfg bhv req d = rejected d 400 spam_detected.
Proof.
  intros Hm He Hh. apply String.eqb_eq in Hm.
  unfold request_errors in *. run_php. rewrite Hm, He, Hh. reflexivity.
Qed.

(** Case analysis on the three exits before the store. *)
Ltac early_exits cfg req :=
  unfold reaches_store, request_errors in *; run_php;
  destruct (String.eqb (REQUEST_METHOD req) "POST");
  [ destruct (validation cfg _ _ _ _ _) as [ | ? ? ];
    [ destruct (honeypot_filled req) | ] | ].

Lemma serve_rejected cfg bhv req d :
  reaches_store cfg req = false ->
  db (serve cfg bhv req d) = d /\ conn (serve cfg bhv req d) = Unset.
Proof.
  intros Hr. early_exits cfg req; try discriminate Hr; by split.
Qed.

(** C8: whatever the request and however the database calls behave
    (the connection fails, [prepare] returns false or throws, [execute]
    returns false or throws, or the insert succeeds), the script ends
    with as many open connections and open statements as it started
    with, and it opens at most one connection. *)
Theorem connection_released (cfg : Config) (bhv : Behaviour) (req : Request)
    (d : Database) :
  open_connections (db (serve cfg bhv req d)) = open_connections d /\
  open_statements (db (serve cfg bhv req d)) = open_statements d /\
  connections_opened (db (serve cfg bhv req d)) <= S (connections_opened d).
Proof.
  early_exits cfg req; try (by auto).
  destruct bhv as [[e0 | ] [ | e1 | e1 ] [ | e2 | e2 ]]; run_php; by auto.
Qed.

(** In the database phase a connection is opened exactly when
    [getDatabaseConnection] does not throw. *)
Lemma store_phase_connects cfg bhv req d :
  reaches_store cfg req = true ->
  connections_opened (db (serve cfg bhv req d))
  = match on_connect bhv with
    | None => S (connections_opened d)
    | Some _ => connections_opened d
    end.
Proof.
  intros Hr. early_exits cfg req; try discriminate Hr.
  destruct bhv as [[e0 | ] [ | e1 | e1 ] [ | e2 | e2 ]]; run_php; reflexivity.
Qed.

(** A successful insert: status 200, the thank-you body carrying the
    identifier the store gave the row, and the row appended. *)
Lemma serve_inserted cfg bhv req d :
  reaches_store cfg req = true ->
  on_connect bhv = None -> on_prepare bhv = Works -> on_execute bhv = Works ->
  let w := serve cfg bhv req d in
  status w = 200 /\
  output w = [ {| success := true;
                  message := "Thank you for your message! I will get back to you soon.";
                  errors := None; id := Some (auto_increment d) |} ] /\
  exists row, rows (db w) = rows d ++ [row] /\ row_id row = auto_increment d.
Proof.
  intros Hr Hc Hp He. destruct bhv as [c pr ex]. simpl in Hc, Hp, He. subst.
  early_exits cfg req; try discriminate Hr.
  run_php. rewrite N.pred_succ. repeat split. eexists. split; reflexivity.
Qed.

(** *** The validation block *)

Lemma empty_short v : empty v = true -> strlen v <= 1.
Proof.
  unfold empty. intros H. apply orb_true_iff in H as [H | H];
    apply String.eqb_eq in H; subst; simpl; lia.
Qed.


Lemma validate_fullName_app errs v :
  validate_fullName errs v = errs ++ validate_fullName [] v.
Proof. unfold validate_fullName. repeat case_match; by rewrite ?app_nil_r. Qed.

Lemma validate_email_app cfg errs v :
  validate_email cfg errs v = errs ++ validate_email cfg [] v.
Proof. unfold validate_email. repeat case_match; by rewrite ?app_nil_r. Qed.

Lemma validate_subject_app errs v :
  validate_subject errs v = errs ++ validate_subject [] v.
Proof. unfold validate_subject. repeat case_match; by rewrite ?app_nil_r. Qed.

Lemma validate_reason_app errs v :
  validate_reason errs v = errs ++ validate_reason [] v.
Proof. unfold validate_reason. repeat case_match; by rewrite ?app_nil_r. Qed.

Lemma validate_message_app errs v :
  validate_message errs v = errs ++ validate_message [] v.
Proof. unfold validate_message. repeat case_match; by rewrite ?app_nil_r. Qed.

(** The error list is the concatenation of what each field contributes. *)
Lemma validation_by_field cfg fullName email subject reason message :
  validation cfg fullName email subject reason message
  = validate_fullName [] fullName ++ validate_email cfg [] email
    ++ validate_subject [] subject ++ validate_reason [] reason
    ++ validate_message [] message.
Proof.
  unfold validation.
  rewrite validate_message_app, validate_reason_app, validate_subject_app,
    validate_email_app.
  by rewrite <- !app_assoc.
Qed.

Lemma first_failing_short rules : length (first_failing rules) <= 1.
Proof.
  induction rules as [ | [violated msg] rest IH ]; simpl; [lia | ].
  destruct violated; simpl; lia.
Qed.

(** C10: the error list is, field by field in the order name, email,
    subject, reason, message, the message of the first rule the field
    violates, the rules of a field being tried in the order required,
    minimum length or format, maximum length or membership.  So each
    field contributes at most one message, the list has at most five
    entries, and a field that is empty contributes its required message
    and nothing else. *)
Theorem one_message_per_field (cfg : Config)
    (fullName email subject reason message : string) :
  let name_part :=
    first_failing
      [ (empty fullName, "Full name is required.");
        (Nat.ltb (strlen fullName) 2, "Full name must be at least 2 characters long.");
        (Nat.ltb 100 (strlen fullName), "Full name must not exceed 100 characters.") ]%string in
  let email_part :=
    first_failing
      [ (empty email, "Email address is required.");
        (negb (validateEmail cfg email), "Please provide a valid email address.");
        (Nat.ltb 255 (strlen email), "Email address is too long.") ]%string in
  let subject_part :=
    first_failing
      [ (empty subject, "Subject is required.");
        (Nat.ltb (strlen subject) 3, "Subject must be at least 3 characters long.");
        (Nat.ltb 255 (strlen subject), "Subject must not exceed 255 characters.") ]%string in
  let reason_part :=
    first_failing
      [ (empty reason, "Please select a reason for contact.");
        (negb (in_array reason validReasons), "Invalid reason selected.") ]%string in
  let message_part :=
    first_failing
      [ (empty message, "Message is required.");
        (Nat.ltb (strlen message) 10, "Message must be at least 10 characters long.");
        (Nat.ltb 5000 (strlen message), "Message must not exceed 5000 characters.") ]%string in
  validation cfg fullName email subject reason message
  = name_part ++ email_part ++ subject_part ++ reason_part ++ message_part /\
  length name_part <= 1 /\ length email_part <= 1 /\ length subject_part <= 1 /\
  length reason_part <= 1 /\ length message_part <= 1 /\
  length (validation cfg fullName email subject reason message) <= 5 /\
  (empty fullName = true -> name_part = ["Full name is required."%string]) /\
  (empty email = true -> email_part = ["Email address is required."%string]) /\
  (empty subject = true -> subject_part = ["Subject is required."%string]) /\
  (empty reason = true -> reason_part = ["Please select a reason for contact."%string]) /\
  (empty message = true -> message_part = ["Message is required."%string]) /\
  validation cfg "" "" "" "" ""
  = [ "Full name is required."; "Email address is required."; "Subject is required.";
      "Please select a reason for contact."; "Message is required." ]%string.
Proof.
  intros name_part email_part subject_part reason_part message_part.
  assert (Hv : validation cfg fullName email subject reason message
               = name_part ++ email_part ++ subject_part ++ reason_part ++ message_part).
  { rewrite validation_by_field.
    subst name_part email_part subject_part reason_part message_part.
    unfold validate_fullName, validate_email, validate_subject, validate_reason,
      validate_message.
    cbn [first_failing app]. reflexivity. }
  split; [exact Hv | ].
  repeat split; try apply first_failing_short.
  - rewrite Hv, !length_app.
    pose proof (first_failing_short
      [ (empty fullName, "Full name is required.");
        (Nat.ltb (strlen fullName) 2, "Full name must be at least 2 characters long.");
        (Nat.ltb 100 (strlen fullName), "Full name must not exceed 100 characters.") ]%string).
    pose proof (first_failing_short
      [ (empty email, "Email address is required.");
        (negb (validateEmail cfg email), "Please provide a valid email address.");
        (Nat.ltb 255 (strlen email), "Email address is too long.") ]%string).
    pose proof (first_failing_short
      [ (empty subject, "Subject is required.");
        (Nat.ltb (strlen subject) 3, "Subject must be at least 3 characters long.");
        (Nat.ltb 255 (strlen subject), "Subject must not exceed 255 characters.") ]%string).
    pose proof (first_failing_short
      [ (empty reason, "Please select a reason for contact.");
        (negb (in_array reason validReasons), "Invalid reason selected.") ]%string).
    pose proof (first_failing_short
      [ (empty message, "Message is required.");
        (Nat.ltb (strlen message) 10, "Message must be at least 10 characters long.");
        (Nat.ltb 5000 (strlen message), "Message must not exceed 5000 characters.") ]%string).
    subst name_part email_part subject_part reason_part message_part. lia.
  - intros E. subst name_part. simpl. by rewrite E.
  - intros E. subst email_part. simpl. by rewrite E.
  - intros E. subst subject_part. simpl. by rewrite E.
  - intros E. subst reason_part. simpl. by rewrite E.
  - intros E. subst message_part. simpl. by rewrite E.
Qed.





(** The message check passes exactly on lengths 10 to 5000. *)
Lemma validate_message_passes errs m :
  validate_message errs m = errs <-> 10 <= strlen m <= 5000.
Proof.
  unfold validate_message.
  destruct (empty m) eqn:E.
  - apply empty_short in E. split; [ | lia].
    intros H. apply (f_equal length) in H. rewrite length_app in H. simpl in H. lia.
  - destruct (Nat.ltb_spec (strlen m) 10); [ | destruct (Nat.ltb_spec 5000 (strlen m)) ].
    + split; [ | lia].
      intros H'. apply (f_equal length) in H'. rewrite length_app in H'. simpl in H'. lia.
    + split; [ | lia].
      intros H'. apply (f_equal length) in H'. rewrite length_app in H'. simpl in H'. lia.
    + split; [lia | done].
Qed.

(** *** The reason check *)

Lemma in_validReasons r :
  in_array r validReasons = true <->
  r = "job"%string \/ r = "project"%string \/ r = "feedback"%string \/ r = "other"%string.
Proof.
  unfold in_array, validReasons. simpl.
  rewrite !orb_true_iff, !String.eqb_eq. intuition discriminate.
Qed.

Lemma snoc_not_self {A} (l : list A) x : l ++ [x] <> l.
Proof.
  intros H. apply (f_equal length) in H. rewrite length_app in H. simpl in H. lia.
Qed.

(** C5 as the script has it: the reason check lets exactly the four
    strings through, compared byte for byte; any other string is turned
    down, with the invalid-reason message unless PHP's [empty] holds of
    it (the empty string and the string 0), which draw the
    reason-required message. *)
Theorem reason_membership (errs : list string) (reason : string) :
  let listed := reason = "job"%string \/ reason = "project"%string \/
                reason = "feedback"%string \/ reason = "other"%string in
  (validate_reason errs reason = errs <-> listed) /\
  (~ listed -> empty reason = false ->
   validate_reason errs reason = errs ++ ["Invalid reason selected."%string]) /\
  (empty reason = true ->
   validate_reason errs reason = errs ++ ["Please select a reason for contact."%string]).
Proof.
  intros listed. subst listed. rewrite <- in_validReasons. unfold validate_reason.
  destruct (empty reason) eqn:E.
  - repeat split; try done.
    + intros H. by apply snoc_not_self in H.
    + intros H. apply in_validReasons in H.
      unfold empty in E. by destruct H as [-> | [-> | [-> | ->]]].
  - destruct (in_array reason validReasons); simpl; repeat split; try done.
    intros H. by apply snoc_not_self in H.
Qed.

Lemma reason_membership_witness :
  validate_reason [] "Job" = ["Invalid reason selected."%string].
Proof.
  apply (proj1 (proj2 (reason_membership [] "Job"))); vm_compute.
  - intros [H | [H | [H | H]]]; discriminate H.
  - reflexivity.
Defined.

(** The string 0 is not empty and not one of the four, yet it draws the
    reason-required message, not the invalid-reason one. *)
Lemma reason_zero_counterexample :
  ~ (forall reason : string,
       reason <> ""%string -> ~ In reason validReasons ->
       validate_reason [] reason = ["Invalid reason selected."%string]).
Proof.
  intros H. specialize (H "0"%string).
  assert (H0 : validate_reason [] "0" = ["Invalid reason selected."%string]).
  { apply H; [discriminate | ].
    simpl. intros [E | [E | [E | [E | []]]]]; discriminate E. }
  vm_compute in H0. discriminate H0.
Qed.

(** *** Exits before the store *)

(** C7: on each of the three early exits (wrong method, violations
    found, honeypot filled) the script answers 405 or 400 with
    [success] false and leaves the store as it found it: no row added,
    no connection opened. *)
Theorem early_exit_leaves_store (cfg : Config) (bhv : Behaviour) (req : Request)
    (d : Database) :
  REQUEST_METHOD req <> "POST"%string \/ request_errors cfg req <> [] \/
    honeypot_filled req = true ->
  (status (serve cfg bhv req d) = 405 \/ status (serve cfg bhv req d) = 400) /\
  (exists body, output (serve cfg bhv req d) = [body] /\ success body = false) /\
  db (serve cfg bhv req d) = d /\
  conn (serve cfg bhv req d) = Unset.
Proof.
  intros H.
  destruct (String.eqb_spec (REQUEST_METHOD req) "POST") as [Hm | Hm].
  - destruct (request_errors cfg req) as [ | e errs ] eqn:He.
    + destruct H as [H | [H | H]]; try done.
      rewrite (serve_spam cfg bhv req d Hm He H).
      repeat split; eauto.
    + rewrite (serve_invalid cfg bhv req d Hm) by (by rewrite He).
      repeat split; eauto.
  - rewrite (serve_wrong_method cfg bhv req d Hm).
    repeat split; eauto.
Qed.

Lemma early_exit_leaves_store_witness :
  db (serve spec_config healthy scenario_D empty_store) = empty_store.
Proof.
  apply (early_exit_leaves_store spec_config healthy scenario_D empty_store).
  left. vm_compute. discriminate.
Defined.

(** Conversely, a 405 or 400 answer is only ever given on those exits. *)
Lemma status_4xx_leaves_store cfg bhv req d :
  status (serve cfg bhv req d) = 405 \/ status (serve cfg bhv req d) = 400 ->
  db (serve cfg bhv req d) = d.
Proof.
  destruct (reaches_store cfg req) eqn:Hr.
  - revert Hr. early_exits cfg req; try discriminate.
    intros _. destruct bhv as [[e0 | ] [ | e1 | e1 ] [ | e2 | e2 ]]; run_php;
      intros [H | H]; discriminate H.
  - intros _. by apply serve_rejected.
Qed.

(** *** The honeypot *)

Lemma honeypot_set req w :
  POST req !! "website"%string = Some w -> empty w = false -> honeypot_filled req = true.
Proof. unfold honeypot_filled. by intros -> ->. Qed.

(** C1 as the script has it: a POST whose honeypot is filled (not empty
    for PHP) is never persisted and is answered 400; the body is the
    spam body when the five fields pass validation, and the
    validation-failure body otherwise, since validation runs first. *)
Theorem honeypot_rejected (cfg : Config) (bhv : Behaviour) (req : Request)
    (d : Database) (w : string) :
  REQUEST_METHOD req = "POST"%string ->
  POST req !! "website"%string = Some w ->
  empty w = false ->
  db (serve cfg bhv req d) = d /\
  status (serve cfg bhv req d) = 400 /\
  output (serve cfg bhv req d)
  = [ if is_empty_array (request_errors cfg req)
      then spam_detected
      else validation_failed (request_errors cfg req) ].
Proof.
  intros Hm Hw He. pose proof (honeypot_set req w Hw He) as Hh.
  destruct (request_errors cfg req) as [ | e errs ] eqn:Hv.
  - by rewrite (serve_spam cfg bhv req d Hm Hv Hh).
  - rewrite (serve_invalid cfg bhv req d Hm) by (by rewrite Hv).
    by rewrite Hv.
Qed.

Lemma honeypot_rejected_witness :
  db (serve spec_config healthy scenario_C empty_store) = empty_store /\
  status (serve spec_config healthy scenario_C empty_store) = 400 /\
  output (serve spec_config healthy scenario_C empty_store) = [spam_detected].
Proof.
  apply (honeypot_rejected spec_config healthy scenario_C empty_store
           "http://spam.example");
    vm_compute; reflexivity.
Defined.

(** A filled honeypot does not always draw the spam body: with invalid
    fields the validation-failure body is sent. *)
Lemma honeypot_counterexample :
  ~ (forall (cfg : Config) (bhv : Behaviour) (req : Request) (d : Database)
            (w : string),
       REQUEST_METHOD req = "POST"%string ->
       POST req !! "website"%string = Some w ->
       w <> ""%string ->
       status (serve cfg bhv req d) = 400 /\
       output (serve cfg bhv req d) = [spam_detected]).
Proof.
  intros H.
  destruct (H spec_config healthy scenario_B_with_honeypot empty_store
              "http://spam.example"%string) as [_ Ho];
    [reflexivity | reflexivity | discriminate | ].
  vm_compute in Ho. discriminate Ho.
Qed.

(** PHP's [empty] holds of the string 0, so a honeypot holding just
    that character is let through and the row is stored. *)
Lemma honeypot_zero_is_stored :
  status (serve spec_config healthy scenario_A_with_zero empty_store) = 200 /\
  length (rows (db (serve spec_config healthy scenario_A_with_zero empty_store))) = 1.
Proof. vm_compute. by split. Qed.

(** *** Scenario B *)

(** C3: with the five sanitised fields J, bad-email, Hi, the empty
    string and short, and an email check that turns bad-email down, the
    script answers 400 with [success] false and all five violation
    messages, one per field, and does not touch the store. *)
Theorem scenario_B_reports_all (cfg : Config) (bhv : Behaviour) (req : Request)
    (d : Database) :
  REQUEST_METHOD req = "POST"%string ->
  posted cfg req "fullname" = "J"%string ->
  posted cfg req "email" = "bad-email"%string ->
  posted cfg req "subject" = "Hi"%string ->
  posted cfg req "reason" = ""%string ->
  posted cfg req "message" = "short"%string ->
  validateEmail cfg "bad-email" = false ->
  serve cfg bhv req d
  = rejected d 400
      {| success := false;
         message := "Validation failed: Full name must be at least 2 characters long. Please provide a valid email address. Subject must be at least 3 characters long. Please select a reason for contact. Message must be at least 10 characters long.";
         errors := Some [ "Full name must be at least 2 characters long.";
                          "Please provide a valid email address.";
                          "Subject must be at least 3 characters long.";
                          "Please select a reason for contact.";
                          "Message must be at least 10 characters long." ]%string;
         id := None |}.
Proof.
  intros Hm Hn He Hs Hr Hmsg Hv.
  assert (Herrs : request_errors cfg req
                  = [ "Full name must be at least 2 characters long.";
                      "Please provide a valid email address.";
                      "Subject must be at least 3 characters long.";
                      "Please select a reason for contact.";
                      "Message must be at least 10 characters long." ]%string).
  { unfold request_errors. rewrite Hn, He, Hs, Hr, Hmsg.
    unfold validation, validate_email. simpl. by rewrite Hv. }
  rewrite (serve_invalid cfg bhv req d Hm) by (by rewrite Herrs).
  by rewrite Herrs.
Qed.

Lemma scenario_B_reports_all_witness :
  status (serve spec_config healthy scenario_B empty_store) = 400.
Proof.
  rewrite (scenario_B_reports_all spec_config healthy scenario_B empty_store);
    vm_compute; reflexivity.
Defined.

(** *** The database phase *)

(** The world a healthy run of the database phase leaves. *)
Lemma serve_healthy cfg bhv req d :
  reaches_store cfg req = true ->
  store_exception bhv = None ->
  serve cfg bhv req d
  = {| db := {| rows := rows d ++ [bound_row cfg req (auto_increment d)];
                auto_increment := N.succ (auto_increment d);
                open_connections := open_connections d;
                open_statements := open_statements d;
                connections_opened := S (connections_opened d) |};
       headers := ["Content-Type: application/json"%string];
       status := 200;
       output := [thank_you (auto_increment d)];
       error_log := [];
       conn := IsObject; stmt := IsObject |}.
Proof.
  intros Hr Hx. destruct bhv as [[e0 | ] [ | e1 | e1 ] [ | e2 | e2 ]];
    cbv in Hx; try discriminate Hx.
  early_exits cfg req; try discriminate Hr.
  run_php. unfold thank_you, bound_row, posted. by rewrite N.pred_succ.
Qed.

(** The world a failing run of the database phase leaves, up to the
    handles. *)
Lemma serve_failing cfg bhv req d e :
  reaches_store cfg req = true ->
  store_exception bhv = Some e ->
  let w := serve cfg bhv req d in
  status w = 500 /\ output w = [server_error cfg e] /\
  error_log w = [("Form submission error: " ++ e)%string] /\
  rows (db w) = rows d /\ auto_increment (db w) = auto_increment d.
Proof.
  intros Hr Hx. destruct bhv as [[e0 | ] [ | e1 | e1 ] [ | e2 | e2 ]];
    cbv in Hx; simplify_eq;
    (early_exits cfg req; try discriminate Hr); run_php; by repeat split.
Qed.

(** X1: a request that passes the three checks, on a store whose calls
    all work, is answered 200 with [success] true and the identifier the
    store gave the row; exactly one row is appended, holding the five
    sanitised fields, the client address and the user agent, and the rows
    already stored are kept. *)
Theorem insert_answer_matches_store (cfg : Config) (bhv : Behaviour)
    (req : Request) (d : Database) :
  REQUEST_METHOD req = "POST"%string ->
  request_errors cfg req = [] ->
  honeypot_filled req = false ->
  store_exception bhv = None ->
  status (serve cfg bhv req d) = 200 /\
  output (serve cfg bhv req d) = [thank_you (auto_increment d)] /\
  rows (db (serve cfg bhv req d))
  = rows d ++ [bound_row cfg req (auto_increment d)] /\
  auto_increment (db (serve cfg bhv req d)) = N.succ (auto_increment d).
Proof.
  intros Hm He Hh Hx.
  rewrite (serve_healthy cfg bhv req d); [by repeat split | | done].
  unfold reaches_store. rewrite He, Hh. by apply String.eqb_eq in Hm as ->.
Qed.

Lemma insert_answer_matches_store_witness :
  output (serve spec_config healthy scenario_A empty_store) = [thank_you 1].
Proof.
  apply (insert_answer_matches_store spec_config healthy scenario_A empty_store);
    vm_compute; reflexivity.
Defined.

(** X2: when the database phase fails (the connection, [prepare] or
    [execute] throws, or [prepare] or [execute] returns false) the answer
    is 500 with [success] false and neither an identifier nor an error
    list, one line goes to the error log with the exception text, and no
    row is stored.  The message sent is the fixed retry text unless
    [DEBUG_MODE] is on, in which case it carries the exception text. *)
Theorem store_failure_answer (cfg : Config) (bhv : Behaviour) (req : Request)
    (d : Database) (e : string) :
  REQUEST_METHOD req = "POST"%string ->
  request_errors cfg req = [] ->
  honeypot_filled req = false ->
  store_exception bhv = Some e ->
  status (serve cfg bhv req d) = 500 /\
  output (serve cfg bhv req d)
  = [ {| success := false;
         message :=
           if DEBUG_MODE cfg
           then ("Database error: " ++ e)%string
           else "An error occurred while processing your request. Please try again later."%string;
         errors := None; id := None |} ] /\
  error_log (serve cfg bhv req d) = [("Form submission error: " ++ e)%string] /\
  rows (db (serve cfg bhv req d)) = rows d /\
  auto_increment (db (serve cfg bhv req d)) = auto_increment d.
Proof.
  intros Hm He Hh Hx.
  apply (serve_failing cfg bhv req d e); [ | done].
  unfold reaches_store. rewrite He, Hh. by apply String.eqb_eq in Hm as ->.
Qed.

Lemma store_failure_answer_witness :
  status (serve spec_config failing_insert scenario_A empty_store) = 500 /\
  error_log (serve spec_config failing_insert scenario_A empty_store)
  = ["Form submission error: Failed to insert data: Duplicate entry"%string].
Proof.
  destruct (store_failure_answer spec_config failing_insert scenario_A empty_store
              "Failed to insert data: Duplicate entry")
    as (? & _ & ? & _); try (vm_compute; reflexivity).
  by split.
Defined.

(** *** Every answer *)

(** The four ways a run can go. *)
Lemma serve_cases cfg bhv req d :
  serve cfg bhv req d = rejected d 405 method_not_allowed \/
  (request_errors cfg req <> [] /\
   serve cfg bhv req d = rejected d 400 (validation_failed (request_errors cfg req))) \/
  serve cfg bhv req d = rejected d 400 spam_detected \/
  reaches_store cfg req = true.
Proof.
  destruct (String.eqb_spec (REQUEST_METHOD req) "POST") as [Hm | Hm].
  - destruct (request_errors cfg req) as [ | e errs ] eqn:He.
    + destruct (honeypot_filled req) eqn:Hh.
      * right. right. left. by apply serve_spam.
      * right. right. right. unfold reaches_store.
        rewrite He, Hh. by apply String.eqb_eq in Hm as ->.
    + right. left. split; [done | ]. rewrite <- He. apply serve_invalid; [done | ].
      by rewrite He.
  - left. by apply serve_wrong_method.
Qed.

(** X3: every run echoes exactly one body under the JSON content type,
    with status 200, 400, 405 or 500; [success] is true exactly under
    status 200, an identifier is present exactly under status 200, and an
    error list is present only under status 400. *)
Theorem answer_shape (cfg : Config) (bhv : Behaviour) (req : Request)
    (d : Database) :
  exists body : Payload,
    output (serve cfg bhv req d) = [body] /\
    headers (serve cfg bhv req d) = ["Content-Type: application/json"%string] /\
    (status (serve cfg bhv req d) = 200 \/ status (serve cfg bhv req d) = 400 \/
     status (serve cfg bhv req d) = 405 \/ status (serve cfg bhv req d) = 500) /\
    (success body = true <-> status (serve cfg bhv req d) = 200) /\
    (is_Some (id body) <-> status (serve cfg bhv req d) = 200) /\
    (is_Some (errors body) -> status (serve cfg bhv req d) = 400).
Proof.
  destruct (serve_cases cfg bhv req d) as [H | [[_ H] | [H | Hr]]].
  - rewrite H. eexists. simpl. repeat split; auto; try done.
    all: try (by intros [? ?]).
  - rewrite H. eexists. simpl. repeat split; auto; try done.
    all: try (by intros [? ?]).
  - rewrite H. eexists. simpl. repeat split; auto; try done.
    all: try (by intros [? ?]).
  - destruct (store_exception bhv) as [e | ] eqn:Hx.
    + destruct (serve_failing cfg bhv req d e Hr Hx) as (Hs & Ho & _).
      assert (Hh : headers (serve cfg bhv req d) = ["Content-Type: application/json"%string]).
      { clear Hs Ho. destruct bhv as [[e0 | ] [ | e1 | e1 ] [ | e2 | e2 ]];
          (early_exits cfg req; try discriminate Hr); reflexivity. }
      rewrite Hs, Ho, Hh. eexists. simpl. repeat split; auto; try done.
      all: try (by intros [? ?]).
    + rewrite (serve_healthy cfg bhv req d Hr Hx). eexists. simpl.
      repeat split; auto; try done.
      by intros [? ?].
Qed.

(** X4: a row is stored exactly when the answer is 200: then one row,
    holding the values bound for the request, is appended; under any
    other status the rows are as before.  Rows already stored are never
    changed or removed. *)
Theorem rows_only_grow (cfg : Config) (bhv : Behaviour) (req : Request)
    (d : Database) :
  (status (serve cfg bhv req d) = 200 ->
   exists n, rows (db (serve cfg bhv req d)) = rows d ++ [bound_row cfg req n]) /\
  (status (serve cfg bhv req d) <> 200 ->
   rows (db (serve cfg bhv req d)) = rows d).
Proof.
  destruct (serve_cases cfg bhv req d) as [H | [[_ H] | [H | Hr]]];
    try (rewrite H; simpl; split; [discriminate | done]).
  destruct (store_exception bhv) as [e | ] eqn:Hx.
  - destruct (serve_failing cfg bhv req d e Hr Hx) as (Hs & _ & _ & Hrows & _).
    rewrite Hs, Hrows. split; [discriminate | done].
  - rewrite (serve_healthy cfg bhv req d Hr Hx). simpl. split; [ | done].
    intros _. by eexists.
Qed.

(** X6: a form field that is not posted at all counts as empty: its
    required message is in the error list, whatever [sanitizeInput] is and
    whatever the other fields hold. *)
Theorem missing_field_is_reported (cfg : Config) (req : Request) :
  (POST req !! "fullname"%string = None ->
   In "Full name is required."%string (request_errors cfg req)) /\
  (POST req !! "email"%string = None ->
   In "Email address is required."%string (request_errors cfg req)) /\
  (POST req !! "subject"%string = None ->
   In "Subject is required."%string (request_errors cfg req)) /\
  (POST req !! "reason"%string = None ->
   In "Please select a reason for contact."%string (request_errors cfg req)) /\
  (POST req !! "message"%string = None ->
   In "Message is required."%string (request_errors cfg req)).
Proof.
  unfold request_errors. rewrite validation_by_field. unfold posted.
  repeat split; intros ->; rewrite !in_app_iff; simpl; tauto.
Qed.

Lemma missing_field_is_reported_witness :
  In "Message is required."%string (request_errors spec_config bare_post).
Proof.
  apply (proj2 (proj2 (proj2 (proj2
           (missing_field_is_reported spec_config bare_post))))).
  vm_compute. reflexivity.
Defined.

Lemma fullName_range v : validate_fullName [] v = [] <-> 2 <= strlen v <= 100.
Proof.
  unfold validate_fullName. destruct (empty v) eqn:E.
  - apply empty_short in E. split; [done | lia].
  - destruct (Nat.ltb_spec (strlen v) 2); [ | destruct (Nat.ltb_spec 100 (strlen v)) ];
      split; try done; lia.
Qed.

Lemma subject_range v : validate_subject [] v = [] <-> 3 <= strlen v <= 255.
Proof.
  unfold validate_subject. destruct (empty v) eqn:E.
  - apply empty_short in E. split; [done | lia].
  - destruct (Nat.ltb_spec (strlen v) 3); [ | destruct (Nat.ltb_spec 255 (strlen v)) ];
      split; try done; lia.
Qed.

Lemma email_range cfg v :
  validate_email cfg [] v = [] <->
  empty v = false /\ validateEmail cfg v = true /\ strlen v <= 255.
Proof.
  unfold validate_email. destruct (empty v); [by split; [ | intros [? _]] | ].
  destruct (validateEmail cfg v); simpl; [ | by split; [ | intros (_ & ? & _)]].
  destruct (Nat.ltb_spec 255 (strlen v)); split; try done.
  intros (_ & _ & ?). lia.
Qed.

Lemma reason_range v :
  validate_reason [] v = [] <->
  v = "job"%string \/ v = "project"%string \/ v = "feedback"%string \/ v = "other"%string.
Proof.
  rewrite <- in_validReasons. unfold validate_reason. destruct (empty v) eqn:E.
  - split; [done | ]. intros H. apply in_validReasons in H.
    unfold empty in E. by destruct H as [-> | [-> | [-> | ->]]].
  - by destruct (in_array v validReasons).
Qed.

(** X7: the validation block finds nothing wrong exactly when the name
    has 2 to 100 bytes, the email is not empty for PHP, passes
    [validateEmail] and has at most 255 bytes, the subject has 3 to 255
    bytes, the reason is one of the four listed strings, and the message
    has 10 to 5000 bytes. *)
Theorem validation_accepts_exactly (cfg : Config)
    (fullName email subject reason message : string) :
  validation cfg fullName email subject reason message = [] <->
  2 <= strlen fullName <= 100 /\
  (empty email = false /\ validateEmail cfg email = true /\ strlen email <= 255) /\
  3 <= strlen subject <= 255 /\
  (reason = "job"%string \/ reason = "project"%string \/
   reason = "feedback"%string \/ reason = "other"%string) /\
  10 <= strlen message <= 5000.
Proof.
  rewrite validation_by_field.
  rewrite <- fullName_range, <- (email_range cfg), <- subject_range, <- reason_range,
    <- (validate_message_passes [] message).
  split.
  - intros H. apply app_eq_nil in H as [H1 H]. apply app_eq_nil in H as [H2 H].
    apply app_eq_nil in H as [H3 H]. apply app_eq_nil in H as [H4 H5]. done.
  - intros (-> & -> & -> & -> & H5). simpl in *. done.
Qed.

(** X8: the method check comes first: a request that is not a POST is
    answered 405 with the method-not-allowed body whatever it carries and
    however the collaborators behave; nothing is stored or logged. *)
Theorem wrong_method_answer (cfg : Config) (bhv : Behaviour) (req : Request)
    (d : Database) :
  REQUEST_METHOD req <> "POST"%string ->
  status (serve cfg bhv req d) = 405 /\
  output (serve cfg bhv req d)
  = [ {| success := false;
         message := "Method not allowed. Only POST requests are accepted.";
         errors := None; id := None |} ] /\
  db (serve cfg bhv req d) = d /\
  error_log (serve cfg bhv req d) = [].
Proof.
  intros Hm. by rewrite (serve_wrong_method cfg bhv req d Hm).
Qed.

Lemma wrong_method_answer_witness :
  status (serve spec_config healthy scenario_D empty_store) = 405.
Proof.
  apply (wrong_method_answer spec_config healthy scenario_D empty_store).
  vm_compute. discriminate.
Defined.

End ServerFacts.

(* ===================================================================== *)
(** ** The client's checks against the server's *)
(* ===================================================================== *)

Module PipelineFacts.
Import Pipeline.
Local Open Scope list_scope.


















(** C4 as the scripts have it.  Client: a blank email draws the
    email-required message, a non-blank one outside the local@domain
    shape draws the email-format message, one inside the shape draws
    nothing.  Server: an email that is empty for PHP draws the
    email-required message, a non-empty one that [validateEmail] turns
    down draws the email-format message, and one that it lets through
    and that has at most 255 bytes draws nothing. *)
Theorem email_format_check (p : Client.Page) (cfg : Server.Config)
    (errs : list string) (e : string) :
  let v := Client.trim (Client.value (Client.email p)) in
  let shown := Client.shown_error (Client.email (snd (Client.validateForm p))) in
  (v = [] -> shown = Some (Client.js "Please enter your email address")) /\
  (v <> [] -> ~ Client.local_at_domain v ->
   shown = Some (Client.js "Please enter a valid email address")) /\
  (Client.local_at_domain v -> shown = None) /\
  (Server.empty e = true ->
   Server.validate_email cfg errs e = errs ++ ["Email address is required."%string]) /\
  (Server.empty e = false -> Server.validateEmail cfg e = false ->
   Server.validate_email cfg errs e
   = errs ++ ["Please provide a valid email address."%string]) /\
  (Server.empty e = false -> Server.validateEmail cfg e = true ->
   Server.strlen e <= 255 ->
   Server.validate_email cfg errs e = errs).
Proof.
  intros v shown. subst shown.
  rewrite ClientFacts.validateForm_email_field. unfold Client.email_error.
  fold v. repeat split.
  - by intros ->.
  - intros Hne Hs. apply ClientFacts.isValidEmail_not_shape in Hs. rewrite Hs.
    by destruct v.
  - intros Hs. pose proof Hs as Hs'. apply ClientFacts.isValidEmail_shape in Hs'.
    rewrite Hs'. destruct v; [ | done]. by vm_compute in Hs'.
  - unfold Server.validate_email. by intros ->.
  - unfold Server.validate_email. by intros -> ->.
  - unfold Server.validate_email. intros -> -> Hl. simpl.
    by replace (Nat.ltb 255 (Server.strlen e)) with false
      by (symmetry; by apply Nat.ltb_ge).
Qed.

Lemma email_format_check_witness :
  Server.validate_email Server.spec_config [] "bad-email"
  = ["Please provide a valid email address."%string].
Proof.
  apply (proj1 (proj2 (proj2 (proj2 (proj2
           (email_format_check Client.sample_page Server.spec_config [] "bad-email"))))));
    vm_compute; reflexivity.
Defined.

(** The empty email is outside the shape, yet neither script answers it
    with the email-format message: both give the email-required one. *)
Lemma empty_email_counterexample :
  ~ (forall p : Client.Page,
       ~ Client.local_at_domain (Client.trim (Client.value (Client.email p))) ->
       Client.shown_error (Client.email (snd (Client.validateForm p)))
       = Some (Client.js "Please enter a valid email address")) /\
  ~ (forall (cfg : Server.Config) (e : string),
       Server.validateEmail cfg e = false ->
       Server.validate_email cfg [] e = ["Please provide a valid email address."%string]).
Proof.
  split.
  - intros H.
    specialize (H (form_of "Jane Doe" "" "Hello" "job" "I would like to connect.")).
    assert (Hs : Client.shown_error
                   (Client.email (snd (Client.validateForm
                      (form_of "Jane Doe" "" "Hello" "job" "I would like to connect."))))
                 = Some (Client.js "Please enter a valid email address")).
    { apply H. apply ClientFacts.isValidEmail_not_shape. vm_compute. reflexivity. }
    vm_compute in Hs. discriminate Hs.
  - intros H. specialize (H Server.spec_config ""%string).
    assert (Hs : Server.validate_email Server.spec_config [] ""
                 = ["Please provide a valid email address."%string])
      by (apply H; vm_compute; reflexivity).
    vm_compute in Hs. discriminate Hs.
Qed.

(** *** From the server's answer to the page *)

(** X24: put together, the two scripts show the visitor one of two
    things after a passing [validateForm].  If the server stored the
    submission (status 200) the success message replaces the form.  On
    every other answer of the server (405, 400 for violations or spam,
    500) the banner carries the fixed server-error text: the messages
    the server puts in its body, the list of violations included, are
    never displayed. *)
Theorem server_answer_on_page (parse : Server.Payload -> Client.Body)
    (cfg : Server.Config) (bhv : Server.Behaviour) (req : Server.Request)
    (d : Server.Database) (p : Client.Page) :
  fst (Client.validateForm p) = Client.Normal true ->
  (forall body, Server.success body = true ->
                exists msg, parse body = Client.Json true msg) ->
  (Server.status (Server.serve cfg bhv req d) = 200 ->
   Client.success_div
     (snd (Client.onSubmit (settle parse (Server.serve cfg bhv req d)) p)) = true /\
   Client.form_display
     (snd (Client.onSubmit (settle parse (Server.serve cfg bhv req d)) p))
   = Client.js "none") /\
  (Server.status (Server.serve cfg bhv req d) <> 200 ->
   Client.submission_error
     (snd (Client.onSubmit (settle parse (Server.serve cfg bhv req d)) p))
   = Some (Client.js "Server error. Please try again later.") /\
   Client.form_display
     (snd (Client.onSubmit (settle parse (Server.serve cfg bhv req d)) p))
   = Client.form_display p).
Proof.
  intros Hv Hparse. unfold settle.
  destruct (ServerFacts.serve_cases cfg bhv req d) as [H | [[_ H] | [H | Hr]]].
  - rewrite H. simpl. split; [discriminate | intros _].
    by destruct (ClientFacts.onSubmit_not_ok (parse Server.method_not_allowed) p Hv)
      as (? & _ & ? & _).
  - rewrite H. simpl. split; [discriminate | intros _].
    by destruct (ClientFacts.onSubmit_not_ok
                   (parse (Server.validation_failed (Server.request_errors cfg req))) p Hv)
      as (? & _ & ? & _).
  - rewrite H. simpl. split; [discriminate | intros _].
    by destruct (ClientFacts.onSubmit_not_ok (parse Server.spam_detected) p Hv)
      as (? & _ & ? & _).
  - destruct (Server.store_exception bhv) as [e | ] eqn:Hx.
    + destruct (ServerFacts.serve_failing cfg bhv req d e Hr Hx) as (Hs & Ho & _).
      rewrite Hs, Ho. simpl. split; [discriminate | intros _].
      by destruct (ClientFacts.onSubmit_not_ok (parse (Server.server_error cfg e)) p Hv)
        as (? & _ & ? & _).
    + rewrite (ServerFacts.serve_healthy cfg bhv req d Hr Hx). simpl.
      split; [intros _ | done].
      destruct (Hparse (Server.thank_you (Server.auto_increment d)) eq_refl) as [msg ->].
      by destruct (ClientFacts.onSubmit_success msg p Hv) as (? & ? & _).
Qed.

Lemma server_answer_on_page_witness :
  Client.submission_error
    (snd (Client.onSubmit
            (settle parse_ascii
               (Server.serve Server.spec_config Server.healthy Server.scenario_B
                  Server.empty_store))
            Client.sample_page))
  = Some (Client.js "Server error. Please try again later.").
Proof.
  destruct (server_answer_on_page parse_ascii Server.spec_config Server.healthy
              Server.scenario_B Server.empty_store Client.sample_page) as [_ H].
  - vm_compute. reflexivity.
  - intros body Hb. unfold parse_ascii. rewrite Hb. by eexists.
  - destruct H as [H _]; [vm_compute; discriminate | exact H].
Defined.

End PipelineFacts.

(* ===================================================================== *)
(** ** Navigation highlight, scroll throttle and typewriter *)
(* ===================================================================== *)

Module NavigationFacts.
Import Navigation.
Local Open Scope list_scope.

(** *** highlightActiveSection *)

(** The links marked for a given current section. *)
Lemma highlight_unfold sections links y :
  highlightActiveSection sections links y
  = map (fun link =>
           {| href := href link;
              active := bool_decide (href link = Client.js "#" ++ current_section sections y) |})
        links.
Proof. reflexivity. Qed.

Lemma loop_out_of_view pos (l : list Section) (cur : Client.jsstring) :
  Forall (fun s => in_view pos s = false) l ->
  fold_left (fun c s => if in_view pos s then id s else c) l cur = cur.
Proof.
  intros H. revert cur. induction H as [ | s l Hs _ IH ]; intros cur; simpl; [done | ].
  by rewrite Hs, IH.
Qed.

(** X18: when some section is in view (its range from [offsetTop] to
    [offsetTop + offsetHeight], the end excluded, holds [scrollY + 150]),
    the last such section in document order is the current one: a link is
    left active exactly when its [href] is # followed by that section's
    id, whatever was marked before. *)
Theorem highlight_follows_last_section (before after : list Section)
    (section : Section) (links : list NavLink) (scrollY : Z) :
  in_view (scrollY + 150) section = true ->
  Forall (fun s => in_view (scrollY + 150) s = false) after ->
  highlightActiveSection (before ++ section :: after) links scrollY
  = map (fun link =>
           {| href := href link;
              active := bool_decide (href link = Client.js "#" ++ id section) |})
        links.
Proof.
  intros Hin Hafter. rewrite highlight_unfold.
  assert (Hc : current_section (before ++ section :: after) scrollY = id section).
  { unfold current_section. cbv zeta. rewrite fold_left_app. simpl.
    rewrite Hin. by apply loop_out_of_view. }
  by rewrite Hc.
Qed.

Lemma highlight_follows_last_section_witness :
  highlightActiveSection sample_sections sample_links 700
  = [ {| href := Client.js "#hero"; active := false |};
      {| href := Client.js "#projects"; active := true |};
      {| href := Client.js "#contact"; active := false |} ].
Proof.
  apply (highlight_follows_last_section
           [ {| id := Client.js "hero"; offsetTop := 0; offsetHeight := 600 |} ]
           [ {| id := Client.js "contact"; offsetTop := 1500; offsetHeight := 700 |} ]
           {| id := Client.js "projects"; offsetTop := 600; offsetHeight := 900 |}
           sample_links 700).
  - vm_compute. reflexivity.
  - repeat constructor.
Defined.

(** X19: when no section is in view the current section is the empty
    string, so exactly the links whose [href] is the bare # are left
    active; every other link is unmarked. *)
Theorem highlight_without_section (sections : list Section) (links : list NavLink)
    (scrollY : Z) :
  Forall (fun s => in_view (scrollY + 150) s = false) sections ->
  highlightActiveSection sections links scrollY
  = map (fun link =>
           {| href := href link; active := bool_decide (href link = Client.js "#") |})
        links.
Proof.
  intros H. rewrite highlight_unfold.
  assert (Hc : current_section sections scrollY = []).
  { unfold current_section. cbv zeta. by apply loop_out_of_view. }
  rewrite Hc. by rewrite app_nil_r.
Qed.

Lemma highlight_without_section_witness :
  highlightActiveSection sample_sections sample_links 5000
  = [ {| href := Client.js "#hero"; active := false |};
      {| href := Client.js "#projects"; active := false |};
      {| href := Client.js "#contact"; active := false |} ].
Proof.
  rewrite (highlight_without_section sample_sections sample_links 5000).
  - vm_compute. reflexivity.
  - repeat constructor.
Defined.

Lemma highlight_hrefs sections links y :
  map href (highlightActiveSection sections links y) = map href links.
Proof. rewrite highlight_unfold, map_map. by apply map_ext. Qed.

Lemma mark_by_hrefs (f : Client.jsstring -> bool) (links1 links2 : list NavLink) :
  map href links1 = map href links2 ->
  map (fun link => {| href := href link; active := f (href link) |}) links1
  = map (fun link => {| href := href link; active := f (href link) |}) links2.
Proof.
  revert links2.
  induction links1 as [ | l1 links1 IH ]; intros [ | l2 links2 ]; cbn [map]; try done.
  intros [= H1 H2]. by rewrite H1, (IH links2 H2).
Qed.

Lemma highlight_by_hrefs sections links1 links2 y :
  map href links1 = map href links2 ->
  highlightActiveSection sections links1 y = highlightActiveSection sections links2 y.
Proof.
  intros H. rewrite !highlight_unfold.
  pose (f := fun h : Client.jsstring =>
               bool_decide (h = Client.js "#" ++ current_section sections y)).
  exact (mark_by_hrefs f links1 links2 H).
Qed.

(** X20: a run of [highlightActiveSection] keeps the links and their
    order, and its marks depend on the scroll position alone: running it
    after an earlier run gives what it gives on the untouched links. *)
Theorem highlight_forgets_marks (sections : list Section) (links : list NavLink)
    (y0 y : Z) :
  map href (highlightActiveSection sections links y) = map href links /\
  highlightActiveSection sections (highlightActiveSection sections links y0) y
  = highlightActiveSection sections links y.
Proof.
  split; [apply highlight_hrefs | ].
  apply highlight_by_hrefs, highlight_hrefs.
Qed.

(** *** The scroll throttle *)

Lemma run_snoc sections s events e :
  run sections s (events ++ [e]) = step sections (run sections s events) e.
Proof. unfold run. by rewrite fold_left_app. Qed.

Lemma throttle_invariant sections links y0 events :
  let s := run sections (initActiveNavHighlight sections links y0) events in
  frames s = (if ticking s then 1 else 0)%nat /\
  map href (navLinks s) = map href links.
Proof.
  induction events as [ | e events IH ] using rev_ind.
  - split; [done | apply highlight_hrefs].
  - rewrite run_snoc. cbv zeta in IH.
    destruct (run sections (initActiveNavHighlight sections links y0) events)
      as [t f l]. simpl in IH. destruct IH as [-> Hl].
    destruct e as [ | y ]; destruct t; simpl; try done.
    split; [done | ]. by rewrite highlight_hrefs.
Qed.

(** X21: the scroll listener never has more than one animation frame
    pending: after any sequence of scroll events and frames, a callback is
    pending exactly while [ticking] is set; and after a scroll event one
    is pending, so the last scroll position is always acted on. *)
Theorem one_frame_pending (sections : list Section) (links : list NavLink)
    (y0 : Z) (events : list event) :
  frames (run sections (initActiveNavHighlight sections links y0) events)
  = (if ticking (run sections (initActiveNavHighlight sections links y0) events)
     then 1 else 0)%nat /\
  frames (run sections (initActiveNavHighlight sections links y0) (events ++ [Scroll]))
  = 1%nat.
Proof.
  pose proof (throttle_invariant sections links y0 events) as [H _].
  split; [exact H | ].
  rewrite run_snoc.
  destruct (run sections (initActiveNavHighlight sections links y0) events)
    as [t f l]. simpl in H. subst f. by destruct t.
Qed.

(** X22: when a pending frame runs, the links are left as a direct run
    of [highlightActiveSection] on the original links at the position of
    that frame leaves them, however many scroll events and frames came
    before. *)
Theorem frame_shows_position (sections : list Section) (links : list NavLink)
    (y0 y : Z) (events : list event) :
  ticking (run sections (initActiveNavHighlight sections links y0) events) = true ->
  navLinks (run sections (initActiveNavHighlight sections links y0)
              (events ++ [Frame y]))
  = highlightActiveSection sections links y.
Proof.
  intros Ht.
  pose proof (throttle_invariant sections links y0 events) as [Hf Hl].
  rewrite run_snoc.
  destruct (run sections (initActiveNavHighlight sections links y0) events)
    as [t f l]. simpl in Ht, Hf, Hl. subst t f. simpl.
  by apply highlight_by_hrefs.
Qed.

Lemma frame_shows_position_witness :
  navLinks (run sample_sections (initActiveNavHighlight sample_sections sample_links 0)
              ([Scroll; Scroll; Scroll] ++ [Frame 700]))
  = highlightActiveSection sample_sections sample_links 700.
Proof.
  apply (frame_shows_position sample_sections sample_links 0 700 [Scroll; Scroll; Scroll]).
  vm_compute. reflexivity.
Defined.

(** *** The typewriter *)

Lemma ticks_succ original n t :
  ticks original (S n) t
  = (let t' := ticks original n t in
     if timer t' then typeNextChar original t' else t').
Proof.
  revert t. induction n as [ | n IH ]; intros t; [done | ].
  change (ticks original (S (S n)) t)
    with (ticks original (S n) (if timer t then typeNextChar original t else t)).
  by rewrite IH.
Qed.

Lemma take_charAt (l : Client.jsstring) k :
  k < length l -> take k l ++ charAt l k = take (S k) l.
Proof.
  revert k. induction l as [ | c l IH ]; intros k Hk; simpl in Hk; [lia | ].
  destruct k as [ | k ]; [done | ].
  change (take (S k) (c :: l) ++ charAt (c :: l) (S k))
    with (c :: (take k l ++ charAt l k)).
  rewrite IH by lia. done.
Qed.

Lemma typing original k :
  k <= length original ->
  ticks original k initTypewriterEffect
  = {| textContent := take k original; charIndex := k; timer := true |}.
Proof.
  induction k as [ | k IH ]; intros Hk; [done | ].
  rewrite ticks_succ, IH by lia. cbv zeta. simpl timer. cbv iota.
  unfold typeNextChar. simpl charIndex. simpl textContent.
  replace (Nat.ltb k (length original)) with true
    by (symmetry; apply Nat.ltb_lt; lia).
  by rewrite take_charAt by lia.
Qed.

Lemma typed original j :
  ticks original (S (length original) + j) initTypewriterEffect
  = {| textContent := original; charIndex := length original; timer := false |}.
Proof.
  induction j as [ | j IH ].
  - rewrite Nat.add_0_r, ticks_succ, typing by lia. cbv zeta. simpl timer. cbv iota.
    unfold typeNextChar. simpl charIndex. simpl textContent.
    rewrite Nat.ltb_irrefl. by rewrite take_ge by lia.
  - replace (S (length original) + S j) with (S (S (length original) + j)) by lia.
    by rewrite ticks_succ, IH.
Qed.

(** X23: the typewriter types the title one code unit per tick: after
    [k] ticks, for [k] up to the length of the original text, the title
    shows its first [k] code units and a timer is pending; the tick after
    the last code unit sets no further timer, and from then on the title
    shows the original text. *)
Theorem typewriter_types_the_title (original : Client.jsstring) (k j : nat) :
  (k <= length original ->
   ticks original k initTypewriterEffect
   = {| textContent := take k original; charIndex := k; timer := true |}) /\
  ticks original (S (length original) + j) initTypewriterEffect
  = {| textContent := original; charIndex := length original; timer := false |}.
Proof. split; [apply typing | apply typed]. Qed.

Lemma typewriter_types_the_title_witness :
  ticks (Client.js "Hello") 3 initTypewriterEffect
  = {| textContent := Client.js "Hel"; charIndex := 3; timer := true |}.
Proof.
  rewrite (proj1 (typewriter_types_the_title (Client.js "Hello") 3 0)).
  - reflexivity.
  - vm_compute. lia.
Defined.

End NavigationFacts.
